(** * WallMagic account service: registration, login and token issuance

    A shallow embedding of [app/config.py], [app/main.py] and
    [app/routes/auth_routes.py].  Request handlers are written in a small
    state-and-exception monad over the [World] a request runs in (the
    [users] table, the clock, the salts the operating system hands out);
    the third-party primitives the code calls (the bcrypt digest, the
    JSON/base64 codec and the MAC of the JWT library, the e-mail
    validator) are the fields of the [Externals] class. *)

From stdpp Require Import base option list strings pretty gmap.
From Stdlib Require Import ZArith Lia Ascii String.

Local Open Scope Z_scope.

(** ** Configuration: [app/config.py] *)

Record Settings := {
  app_name : string;
  app_version : string;
  debug : bool;
  host : string;
  port : Z;
  database_url : string;
  secret_key : string;
  algorithm : string;
  access_token_expire_minutes : Z;
  allowed_origins : string
}.

(** The defaults of the [Settings] class; any field may be overridden from
    the environment, so theorems quantify over [Settings]. *)
Definition default_settings : Settings := {|
  app_name := "WallMagic";
  app_version := "1.0.0";
  debug := false;
  host := "0.0.0.0";
  port := 8000;
  database_url := "sqlite:///./wallmagic.db";
  secret_key := "your-super-secret-key-change-in-production";
  algorithm := "HS256";
  access_token_expire_minutes := 30;
  allowed_origins := "*"
|}.

(** ** Data model: [app/routes/auth_routes.py] *)

(** A row of the [users] table.  Datetimes are POSIX second counts. *)
Record User := {
  id : Z;
  email : string;
  username : string;
  hashed_password : string;
  full_name : option string;
  created_at : Z;
  updated_at : Z
}.

Record UserRegister := {
  reg_email : string;
  reg_username : string;
  reg_password : string;
  reg_full_name : option string
}.

Record UserLogin := {
  login_email : string;
  login_password : string
}.

(** A compact JWS, kept as its three dot-separated segments. *)
Record Jws := {
  jws_header : string;
  jws_payload : string;
  jws_signature : string
}.

Record Token := {
  access_token : Jws;
  token_type : string;
  expires_in : Z
}.

Record UserResponse := {
  resp_id : Z;
  resp_email : string;
  resp_username : string;
  resp_full_name : option string;
  resp_created_at : Z
}.

Record AuthResponse := {
  message : string;
  user : UserResponse;
  token : Token
}.

(** [UserResponse.model_validate(u)] with [from_attributes = True]: each
    declared field is read from the attribute of the same name. *)
Definition model_validate (u : User) : UserResponse := {|
  resp_id := id u;
  resp_email := email u;
  resp_username := username u;
  resp_full_name := full_name u;
  resp_created_at := created_at u
|}.

(** JWT claim values. *)
Inductive claim :=
  | CStr (s : string)
  | CNum (z : Z).

(** ** Exceptions *)

Record HTTPException := {
  status_code : Z;
  detail : string;
  headers : list (string * string)
}.

Inductive Exception :=
  | HTTPError (e : HTTPException)
  | IntegrityError (orig statement : string) (params : list string)
  | UnknownHashError.

(** ** The world a request runs in *)

Inductive StoreOp :=
  | SelectByEmail (e : string)
  | SelectByUsername (n : string)
  | InsertUser (u : User).

Record World := {
  db_users : list User;      (* the [users] table, in insertion order *)
  db_trace : list StoreOp;   (* statements sent to the store, oldest first *)
  utcnow : Z;                (* [datetime.utcnow()], one instant per request *)
  salts_drawn : nat          (* how many salts the hasher has drawn so far *)
}.

Inductive outcome (A : Type) :=
  | Returned (a : A)
  | Raised (e : Exception).
Arguments Returned {A} a.
Arguments Raised {A} e.

Definition M (A : Type) : Type := World -> outcome A * World.

Global Instance M_ret : MRet M := fun A a w => (Returned a, w).
Global Instance M_bind : MBind M := fun A B f m w =>
  match m w with
  | (Returned a, w') => f a w'
  | (Raised e, w') => (Raised e, w')
  end.

Definition raise {A : Type} (e : Exception) : M A := fun w => (Raised e, w).
Definition get_world : M World := fun w => (Returned w, w).

(** The world after the statements [ops] have been sent to the store. *)
Definition record_ops (ops : list StoreOp) (w : World) : World :=
  {| db_users := db_users w; db_trace := db_trace w ++ ops;
     utcnow := utcnow w; salts_drawn := salts_drawn w |}.

(** The world after the hasher has drawn one more salt. *)
Definition draw_salt (w : World) : World :=
  {| db_users := db_users w; db_trace := db_trace w;
     utcnow := utcnow w; salts_drawn := S (salts_drawn w) |}.

Definition log_op (op : StoreOp) : M unit := fun w =>
  (Returned tt, record_ops [op] w).

(** ** Third-party primitives

    What the code calls but does not define.  Every theorem below holds
    for all instances. *)
Class Externals := {
  (* the bcrypt key-stretching digest: rounds, salt, secret *)
  bcrypt_digest : nat -> string -> string -> string;
  (* the [n]-th salt the operating system's generator hands out *)
  os_salt : nat -> string;
  (* base64url(JSON) of a claim dictionary, and its decoder *)
  json_dumps : gmap string claim -> string;
  json_loads : string -> option (gmap string claim);
  (* the MAC named by an algorithm, under a key, of a signing input *)
  mac : string -> string -> string -> string;
  (* [EmailStr]: the validated address, or rejection *)
  validate_email : string -> option string
}.

(** ** String helpers *)

Fixpoint str_take (n : nat) (s : string) : string :=
  match n, s with
  | S n', String c s' => String c (str_take n' s')
  | _, _ => ""
  end.

Fixpoint str_drop (n : nat) (s : string) : string :=
  match n, s with
  | S n', String c s' => str_drop n' s'
  | _, _ => s
  end.

Fixpoint str_join (sep : string) (l : list string) : string :=
  match l with
  | [] => ""
  | [x] => x
  | x :: l' => x +:+ sep +:+ str_join sep l'
  end.

Fixpoint str_prefix (p s : string) : bool :=
  match p, s with
  | "", _ => true
  | String a p', String b s' => Ascii.eqb a b && str_prefix p' s'
  | _, _ => false
  end.

(** [str_contains needle s]: [needle] occurs in [s] ([needle in s]). *)
Fixpoint str_contains (needle s : string) : bool :=
  str_prefix needle s ||
  match s with
  | "" => false
  | String _ s' => str_contains needle s'
  end.

Definition digit (d : nat) : ascii := ascii_of_nat (48 + d).

Definition two_digits (n : nat) : string :=
  String (digit (n / 10)) (String (digit (n mod 10)) "").

Definition digit_value (c : ascii) : option nat :=
  let n := nat_of_ascii c in
  if ((48 <=? n) && (n <=? 57))%nat then Some (n - 48)%nat else None.

(** ** Credential hasher *)

Section Hasher.
Context {ext : Externals}.

Definition bcrypt_ident : string := "2b".
Definition bcrypt_rounds : nat := 12.
Definition bcrypt_salt_chars : nat := 22.

(** Modelled from the spec: the hash string produced by [pwd_context]
    (passlib's [CryptContext] for the bcrypt scheme, which the source only
    calls).  Per section 4.1 the output encodes algorithm identifier, cost
    factor, salt and digest; the layout is bcrypt's modular-crypt form
    [$2b$<2-digit cost>$<22-char salt><digest>]. *)
Definition encode_hash (rounds : nat) (salt dg : string) : string :=
  "$" +:+ bcrypt_ident +:+ "$" +:+ two_digits rounds +:+ "$" +:+ salt +:+ dg.

(** Modelled from the spec: reading the parameters embedded in a stored
    hash back; [None] for a structurally invalid hash. *)
Definition parse_hash (h : string) : option (nat * string * string) :=
  match h with
  | String "$" (String "2" (String "b" (String "$"
      (String d1 (String d0 (String "$" rest)))))) =>
      match digit_value d1, digit_value d0 with
      | Some r1, Some r0 =>
          if (String.length rest <? bcrypt_salt_chars)%nat then None
          else Some ((10 * r1 + r0)%nat,
                     str_take bcrypt_salt_chars rest,
                     str_drop bcrypt_salt_chars rest)
      | _, _ => None
      end
  | _ => None
  end.

(** Modelled from the spec: [pwd_context.hash] (section 4.1 [hash]).  The
    salt is generated internally: the next one the generator hands out. *)
Definition pwd_context_hash (secret : string) : M string := fun w =>
  let salt := os_salt (salts_drawn w) in
  (Returned (encode_hash bcrypt_rounds salt
               (bcrypt_digest bcrypt_rounds salt secret)),
   {| db_users := db_users w; db_trace := db_trace w;
      utcnow := utcnow w; salts_drawn := S (salts_drawn w) |}).

(** Modelled from the spec: [pwd_context.verify] (section 4.1 [verify]).
    The digest is recomputed with the parameters embedded in the stored
    hash and compared; a structurally invalid hash is an error distinct
    from a wrong password. *)
Definition pwd_context_verify (secret h : string) : M bool :=
  match parse_hash h with
  | Some (rounds, salt, dg) =>
      mret (String.eqb (bcrypt_digest rounds salt secret) dg)
  | None => raise UnknownHashError
  end.

(** [verify_password], auth_routes.py:95 *)
Definition verify_password (plain_password hashed : string) : M bool :=
  pwd_context_verify plain_password hashed.

(** [get_password_hash], auth_routes.py:100 *)
Definition get_password_hash (password : string) : M string :=
  pwd_context_hash password.
End Hasher.

(** ** The [users] table *)

Definition set_users (us : list User) (w : World) : World :=
  {| db_users := us; db_trace := db_trace w;
     utcnow := utcnow w; salts_drawn := salts_drawn w |}.

(** [get_user_by_email], auth_routes.py:113:
    [db.query(User).filter(User.email == email).first()] *)
Definition get_user_by_email (e : string) : M (option User) :=
  _ ← log_op (SelectByEmail e);
  w ← get_world;
  mret (List.find (fun u => String.eqb (email u) e) (db_users w)).

(** [get_user_by_username], auth_routes.py:118 *)
Definition get_user_by_username (n : string) : M (option User) :=
  _ ← log_op (SelectByUsername n);
  w ← get_world;
  mret (List.find (fun u => String.eqb (username u) n) (db_users w)).

(** The integer primary key of a new row: one more than the largest in use. *)
Definition next_id (us : list User) : Z :=
  1 + foldr (fun u acc => Z.max (id u) acc) 0 us.

Definition insert_statement : string :=
  "INSERT INTO users (email, username, hashed_password, full_name, created_at, updated_at) VALUES (?, ?, ?, ?, ?, ?)".

Definition insert_params (u : User) : list string :=
  [email u; username u; hashed_password u; default "None" (full_name u)].

(** [db.add(db_user); db.commit(); db.refresh(db_user)], auth_routes.py:166.
    The columns [email] and [username] are declared [unique=True]
    (auth_routes.py:34-35): the store refuses a second row with either and
    the commit raises [IntegrityError]; otherwise the row gets its key and
    its [created_at]/[updated_at] defaults and is read back. *)
Definition db_add_commit_refresh
    (e n hashed : string) (fn : option string) : M User :=
  w ← get_world;
  let row := {| id := next_id (db_users w); email := e; username := n;
                hashed_password := hashed; full_name := fn;
                created_at := utcnow w; updated_at := utcnow w |} in
  _ ← log_op (InsertUser row);
  if existsb (fun u => String.eqb (email u) e) (db_users w) then
    raise (IntegrityError "UNIQUE constraint failed: users.email"
             insert_statement (insert_params row))
  else if existsb (fun u => String.eqb (username u) n) (db_users w) then
    raise (IntegrityError "UNIQUE constraint failed: users.username"
             insert_statement (insert_params row))
  else
    _ ← (fun w' => (Returned tt, set_users (db_users w' ++ [row]) w'));
    mret row.

(** [str(exc)].  An [HTTPException] prints as status and detail.  The ORM
    renders a driver error as the driver's message followed by the statement
    and its bound parameters (the two timestamp parameters are left out
    here, as in [insert_params]). *)
Definition str_exc (exc : Exception) : string :=
  match exc with
  | HTTPError e => pretty (status_code e) +:+ ": " +:+ detail e
  | IntegrityError orig statement params =>
      "(sqlite3.IntegrityError) " +:+ orig +:+ " [SQL: " +:+ statement
      +:+ "] [parameters: (" +:+ str_join ", " params +:+ ")]"
  | UnknownHashError => "hash could not be identified"
  end.

(** ** Tokens and the two routes *)

Section Routes.
Context {ext : Externals}.
Variable settings : Settings.

(** [jwt.encode(claims, key, algorithm=alg)]: header and payload are
    serialised, and the MAC of [header.payload] is the third segment. *)
Definition jwt_encode (claims : gmap string claim) (key alg : string) : Jws :=
  let h := json_dumps {[ "alg" := CStr alg; "typ" := CStr "JWT" ]} in
  let p := json_dumps claims in
  {| jws_header := h; jws_payload := p;
     jws_signature := mac alg key (h +:+ "." +:+ p) |}.

Definition timedelta_minutes (m : Z) : Z := 60 * m.

(** [expires_delta or timedelta(minutes=...)]: [None] and the zero
    [timedelta] are both falsy. *)
Definition effective_delta (expires_delta : option Z) : Z :=
  match expires_delta with
  | Some d => if d =? 0 then timedelta_minutes (access_token_expire_minutes settings) else d
  | None => timedelta_minutes (access_token_expire_minutes settings)
  end.

(** [to_encode] of [create_access_token], auth_routes.py:107-109. *)
Definition to_encode (data : gmap string claim) (expires_delta : option Z)
    (now : Z) : gmap string claim :=
  <[ "exp" := CNum (now + effective_delta expires_delta) ]> data.

(** [create_access_token], auth_routes.py:105 *)
Definition create_access_token (data : gmap string claim)
    (expires_delta : option Z) : M Jws :=
  w ← get_world;
  mret (jwt_encode (to_encode data expires_delta (utcnow w))
          (secret_key settings) (algorithm settings)).

Definition issue_for (u : User) : M Token :=
  tok ← create_access_token
          {[ "sub" := CStr (email u); "user_id" := CNum (id u) ]} None;
  mret {| access_token := tok; token_type := "bearer";
          expires_in := access_token_expire_minutes settings * 60 |}.

Definition email_conflict : HTTPException :=
  {| status_code := 409; detail := "Email already registered"; headers := [] |}.

Definition username_conflict : HTTPException :=
  {| status_code := 409; detail := "Username already taken"; headers := [] |}.

Definition invalid_credentials : HTTPException :=
  {| status_code := 401; detail := "Invalid email or password";
     headers := [("WWW-Authenticate", "Bearer")] |}.

(** [register], auth_routes.py:143-155: the two uniqueness checks. *)
Definition register_checks (user_data : UserRegister) : M unit :=
  by_email ← get_user_by_email (reg_email user_data);
  if bool_decide (is_Some by_email) then raise (HTTPError email_conflict) else
  by_username ← get_user_by_username (reg_username user_data);
  if bool_decide (is_Some by_username) then raise (HTTPError username_conflict) else
  mret tt.

(** [register], auth_routes.py:157-180: hash, write, issue, respond. *)
Definition register_create (user_data : UserRegister) : M AuthResponse :=
  hashed ← get_password_hash (reg_password user_data);
  db_user ← db_add_commit_refresh (reg_email user_data) (reg_username user_data)
              hashed (reg_full_name user_data);
  tok ← issue_for db_user;
  mret {| message := "User registered successfully";
          user := model_validate db_user;
          token := tok |}.

(** [register], auth_routes.py:134 *)
Definition register (user_data : UserRegister) : M AuthResponse :=
  _ ← register_checks user_data;
  register_create user_data.

(** A registration during which another request acts on the world between
    the checks and the write. *)
Definition register_interleaved (other : M unit) (user_data : UserRegister)
    : M AuthResponse :=
  _ ← register_checks user_data;
  _ ← other;
  register_create user_data.

(** [login], auth_routes.py:190 *)
Definition login (credentials : UserLogin) : M AuthResponse :=
  found ← get_user_by_email (login_email credentials);
  match found with
  | None => raise (HTTPError invalid_credentials)
  | Some u =>
      ok ← verify_password (login_password credentials) (hashed_password u);
      if negb ok then raise (HTTPError invalid_credentials) else
      tok ← issue_for u;
      mret {| message := "Login successful";
              user := model_validate u;
              token := tok |}
  end.

End Routes.

(** ** Request validation and the application layer *)

Section App.
Context {ext : Externals}.
Variable settings : Settings.

Definition length_between (lo hi : nat) (s : string) : bool :=
  ((lo <=? String.length s) && (String.length s <=? hi))%nat.

(** The [UserRegister] schema, auth_routes.py:48: the validated model, or
    the fields that failed. *)
Definition parse_UserRegister (body : UserRegister)
    : list string + UserRegister :=
  let errors :=
    (match validate_email (reg_email body) with
     | Some _ => []
     | None => ["email"]
     end) ++
    (if length_between 3 100 (reg_username body) then [] else ["username"]) ++
    (if length_between 6 100 (reg_password body) then [] else ["password"]) ++
    (match reg_full_name body with
     | Some fn => if (String.length fn <=? 255)%nat then [] else ["full_name"]
     | None => []
     end) in
  match errors, validate_email (reg_email body) with
  | [], Some e =>
      inr {| reg_email := e; reg_username := reg_username body;
             reg_password := reg_password body;
             reg_full_name := reg_full_name body |}
  | _, _ => inl errors
  end.

(** The [UserLogin] schema, auth_routes.py:56: [password: str] carries no
    [Field] constraint. *)
Definition parse_UserLogin (body : UserLogin) : list string + UserLogin :=
  match validate_email (login_email body) with
  | Some e => inr {| login_email := e; login_password := login_password body |}
  | None => inl ["email"]
  end.

Inductive Body :=
  | AuthBody (r : AuthResponse)
  | DetailBody (d : string)
  | UnexpectedBody (d error path : string)
  | ValidationBody (fields : list string).

Record Response := {
  status : Z;
  body : Body;
  response_headers : list (string * string)
}.

(** [global_exception_handler], main.py:59 *)
Definition global_exception_handler (path : string) (exc : Exception)
    : Response :=
  {| status := 500;
     body := UnexpectedBody "An unexpected error occurred"
               (if debug settings then str_exc exc else "Internal Server Error")
               path;
     response_headers := [] |}.

(** How the application answers for a route: the route's own status on
    return, the framework's rendering of an [HTTPException], and
    [global_exception_handler] for every other exception. *)
Definition respond (ok_status : Z) (path : string) (r : outcome AuthResponse)
    : Response :=
  match r with
  | Returned a =>
      {| status := ok_status; body := AuthBody a; response_headers := [] |}
  | Raised (HTTPError e) =>
      {| status := status_code e; body := DetailBody (detail e);
         response_headers := headers e |}
  | Raised exc => global_exception_handler path exc
  end.

Definition unprocessable (fields : list string) : Response :=
  {| status := 422; body := ValidationBody fields; response_headers := [] |}.


(** [POST /api/v1/login] *)
Definition post_login (body : UserLogin) (w : World) : Response * World :=
  match parse_UserLogin body with
  | inl fields => (unprocessable fields, w)
  | inr credentials =>
      let '(r, w') := login settings credentials w in
      (respond 200 "/api/v1/login" r, w')
  end.

End App.

(** ** Token verification *)

Inductive VerificationError :=
  | BadSignature
  | Expired
  | Malformed.

Section Verifier.
Context {ext : Externals}.

(** Modelled from the spec: the token verifier of section 4.2
    ([verify(token_string)]), which no source file defines.  It checks
    signature integrity first, without parsing the claims of a token whose
    signature does not match; then parses the claims and checks [exp] against
    the current time; then returns the claim set. *)
Definition verify_token (key alg : string) (now : Z) (t : Jws)
    : VerificationError + gmap string claim :=
  if negb (String.eqb (mac alg key (jws_header t +:+ "." +:+ jws_payload t))
             (jws_signature t))
  then inl BadSignature
  else match json_loads (jws_payload t) with
       | None => inl Malformed
       | Some claims =>
           match claims !! "exp" with
           | Some (CNum e) => if e <? now then inl Expired else inr claims
           | _ => inl Malformed
           end
       end.

Definition with_signature (sig : string) (t : Jws) : Jws :=
  {| jws_header := jws_header t; jws_payload := jws_payload t;
     jws_signature := sig |}.

End Verifier.

(** ** Letter case *)

Definition ascii_lower (c : ascii) : ascii :=
  let n := nat_of_ascii c in
  if ((65 <=? n) && (n <=? 90))%nat then ascii_of_nat (n + 32) else c.

Fixpoint str_lower (s : string) : string :=
  match s with
  | "" => ""
  | String c s' => String (ascii_lower c) (str_lower s')
  end.

(** ** A concrete instance, for running the model

    The digest and the MAC are transparent stand-ins; the codec is a real
    one (it round-trips every claim dictionary), built from the countable
    encoding of [gmap string claim]. *)

Global Instance claim_eq_dec : EqDecision claim.
Proof. solve_decision. Defined.

Definition claim_to_sum (c : claim) : string + Z :=
  match c with CStr s => inl s | CNum z => inr z end.

Definition claim_of_sum (x : string + Z) : claim :=
  match x with inl s => CStr s | inr z => CNum z end.

Global Instance claim_countable : Countable claim.
Proof.
  apply (inj_countable' claim_to_sum claim_of_sum).
  intros []; reflexivity.
Defined.

Fixpoint pos_to_bits (p : positive) : string :=
  match p with
  | xH => ""
  | xO q => String "0" (pos_to_bits q)
  | xI q => String "1" (pos_to_bits q)
  end.

Fixpoint bits_to_pos (s : string) : positive :=
  match s with
  | String "0" r => xO (bits_to_pos r)
  | String "1" r => xI (bits_to_pos r)
  | _ => xH
  end.

(** A rolling checksum standing in for the key-stretching digest. *)
Fixpoint checksum (acc : nat) (s : string) : nat :=
  match s with
  | "" => acc
  | String c s' => checksum ((31 * acc + nat_of_ascii c) mod 4999) s'
  end.

Definition four_digits (n : nat) : string :=
  two_digits (n / 100) +:+ two_digits (n mod 100).

Definition sample_salt (n : nat) : string :=
  str_take 22 (two_digits n +:+ "saltsaltsaltsaltsaltsalt").

Definition sample_externals : Externals := {|
  bcrypt_digest := fun rounds salt secret =>
    four_digits (checksum rounds (salt +:+ secret));
  os_salt := sample_salt;
  json_dumps := fun c => pos_to_bits (encode c);
  json_loads := fun s => decode (bits_to_pos s);
  mac := fun alg key msg => alg +:+ "(" +:+ key +:+ "," +:+ msg +:+ ")";
  validate_email := fun s => if str_contains "@" s then Some s else None
|}.

Definition empty_world : World :=
  {| db_users := []; db_trace := []; utcnow := 1700000000; salts_drawn := 0 |}.

Definition alice_request : UserRegister :=
  {| reg_email := "a@x.com"; reg_username := "alice";
     reg_password := "secret1"; reg_full_name := None |}.

Definition alice_row : User :=
  {| id := 1; email := "a@x.com"; username := "alice";
     hashed_password :=
       "$2b$12$00saltsaltsaltsaltsalt4814";
     full_name := None;
     created_at := 1700000000; updated_at := 1700000000 |}.

(** The world after [alice_request] has been served on [empty_world]. *)
Definition alice_world : World :=
  {| db_users := [alice_row];
     db_trace := [SelectByEmail "a@x.com"; SelectByUsername "alice";
                  InsertUser alice_row];
     utcnow := 1700000000;
     salts_drawn := 1 |}.

Definition alice_login : UserLogin :=
  {| login_email := "a@x.com"; login_password := "secret1" |}.

Definition wrong_password_login : UserLogin :=
  {| login_email := "a@x.com"; login_password := "wrong" |}.

Definition unknown_email_login : UserLogin :=
  {| login_email := "nobody@x.com"; login_password := "secret1" |}.

Definition mixed_case_login : UserLogin :=
  {| login_email := "A@x.com"; login_password := "secret1" |}.

Definition empty_password_login : UserLogin :=
  {| login_email := "a@x.com"; login_password := "" |}.

Definition mixed_case_request : UserRegister :=
  {| reg_email := "A@x.com"; reg_username := "alice2";
     reg_password := "secret2"; reg_full_name := None |}.

Definition duplicate_email_request : UserRegister :=
  {| reg_email := "a@x.com"; reg_username := "alice2";
     reg_password := "secret2"; reg_full_name := None |}.

Definition duplicate_username_request : UserRegister :=
  {| reg_email := "b@x.com"; reg_username := "alice";
     reg_password := "secret2"; reg_full_name := None |}.

Definition debug_settings : Settings := {|
  app_name := "WallMagic";
  app_version := "1.0.0";
  debug := true;
  host := "0.0.0.0";
  port := 8000;
  database_url := "sqlite:///./wallmagic.db";
  secret_key := "your-super-secret-key-change-in-production";
  algorithm := "HS256";
  access_token_expire_minutes := 30;
  allowed_origins := "*"
|}.

(** [alice_world] with another password ("hunter22") and salt behind
    Alice's stored hash. *)
Definition alice_row_rehashed : User :=
  {| id := 1; email := "a@x.com"; username := "alice";
     hashed_password := "$2b$12$99saltsaltsaltsaltsalt3337";
     full_name := None;
     created_at := 1700000000; updated_at := 1700000000 |}.

Definition alice_world_rehashed : World :=
  {| db_users := [alice_row_rehashed]; db_trace := [];
     utcnow := 1700000000; salts_drawn := 7 |}.

Definition hunter_login : UserLogin :=
  {| login_email := "a@x.com"; login_password := "hunter22" |}.

(** Another request's write: a row with [alice_request]'s e-mail address
    committed by a concurrent registration. *)
Definition rival_commit : M unit :=
  _ ← db_add_commit_refresh "a@x.com" "bob"
        "$2b$12$99saltsaltsaltsaltsalt3337" None;
  mret tt.

(** ** Vocabulary of the statements *)

Section Vocabulary.
Context {ext : Externals}.
Variable settings : Settings.

(** The hash [register] stores for [user_data] in world [w]. *)
Definition fresh_hash (user_data : UserRegister) (w : World) : string :=
  encode_hash bcrypt_rounds (os_salt (salts_drawn w))
    (bcrypt_digest bcrypt_rounds (os_salt (salts_drawn w))
       (reg_password user_data)).

(** The row [register] writes for [user_data] in world [w]. *)
Definition fresh_user (user_data : UserRegister) (w : World) : User :=
  {| id := next_id (db_users w);
     email := reg_email user_data;
     username := reg_username user_data;
     hashed_password := fresh_hash user_data w;
     full_name := reg_full_name user_data;
     created_at := utcnow w;
     updated_at := utcnow w |}.

(** The token the routes issue for user [u] at time [now]. *)
Definition issued_token (u : User) (now : Z) : Token :=
  {| access_token :=
       jwt_encode
         {[ "sub" := CStr (email u); "user_id" := CNum (id u);
            "exp" := CNum (now + 60 * access_token_expire_minutes settings) ]}
         (secret_key settings) (algorithm settings);
     token_type := "bearer";
     expires_in := access_token_expire_minutes settings * 60 |}.

(** What [verify_password] computes: [None] when the stored hash is
    structurally invalid. *)
Definition check_password (p h : string) : option bool :=
  match parse_hash h with
  | Some (rounds, salt, dg) => Some (String.eqb (bcrypt_digest rounds salt p) dg)
  | None => None
  end.

(** The record [get_user_by_email] returns for [e]. *)
Definition stored_user (e : string) (w : World) : option User :=
  List.find (fun u => String.eqb (email u) e) (db_users w).

(** The claim set of the token the routes issue. *)
Definition issued_claims (sub : string) (user_id now : Z) : gmap string claim :=
  {[ "sub" := CStr sub; "user_id" := CNum user_id;
     "exp" := CNum (now + 60 * access_token_expire_minutes settings) ]}.

(** The row [u] with [h] as its stored hash. *)
Definition with_hash (h : string) (u : User) : User :=
  {| id := id u; email := email u; username := username u;
     hashed_password := h; full_name := full_name u;
     created_at := created_at u; updated_at := updated_at u |}.

(** No statement of [ops] writes to the store. *)
Definition read_only (ops : list StoreOp) : Prop :=
  forall u, ~ In (InsertUser u) ops.

(** In [ops], every write comes after a look-up by e-mail [e] and a look-up
    by username [n]. *)
Definition writes_follow_checks (e n : string) (ops : list StoreOp) : Prop :=
  forall i u, ops !! i = Some (InsertUser u) ->
    exists j k, (j < i)%nat /\ (k < i)%nat /\
      ops !! j = Some (SelectByEmail e) /\
      ops !! k = Some (SelectByUsername n).

(** Two worlds that differ at most in the stored hashes (and in what
    happened before): same public view of every row, same clock. *)
Definition same_public (w1 w2 : World) : Prop :=
  map model_validate (db_users w1) = map model_validate (db_users w2) /\
  utcnow w1 = utcnow w2.

Definition email_taken (e : string) (w : World) : bool :=
  existsb (fun u => String.eqb (email u) e) (db_users w).

Definition username_taken (n : string) (w : World) : bool :=
  existsb (fun u => String.eqb (username u) n) (db_users w).

End Vocabulary.

(** ** CORS origins: [Settings.cors_origins], config.py:35

    Characters are code points below 256. *)

(** [str.isspace()] on one character. *)
Definition is_space (c : ascii) : bool :=
  let n := nat_of_ascii c in
  (((9 <=? n) && (n <=? 13)) || ((28 <=? n) && (n <=? 32))
   || (n =? 133) || (n =? 160))%nat.

(** [s.split(sep)] for a one-character separator. *)
Fixpoint split_on (sep : ascii) (s : string) : list string :=
  match s with
  | "" => [""]
  | String c s' =>
      if Ascii.eqb c sep then "" :: split_on sep s'
      else match split_on sep s' with
           | x :: r => String c x :: r
           | [] => [String c ""]
           end
  end.

Fixpoint lstrip (s : string) : string :=
  match s with
  | "" => ""
  | String c s' => if is_space c then lstrip s' else s
  end.

Fixpoint rstrip (s : string) : string :=
  match s with
  | "" => ""
  | String c s' =>
      match rstrip s' with
      | "" => if is_space c then "" else String c ""
      | r => String c r
      end
  end.

(** [s.strip()] *)
Definition strip (s : string) : string := rstrip (lstrip s).

(** [Settings.cors_origins], config.py:35 *)
Definition cors_origins (settings : Settings) : list string :=
  if String.eqb (allowed_origins settings) "*" then ["*"]
  else map strip (split_on "," (allowed_origins settings)).

(** The settings with [allowed_origins] set to [s]. *)
Definition with_allowed_origins (s : string) (settings : Settings) : Settings :=
  {| app_name := app_name settings; app_version := app_version settings;
     debug := debug settings; host := host settings; port := port settings;
     database_url := database_url settings;
     secret_key := secret_key settings; algorithm := algorithm settings;
     access_token_expire_minutes := access_token_expire_minutes settings;
     allowed_origins := s |}.

(** [c] occurs in [s]. *)
Fixpoint str_mem (c : ascii) (s : string) : bool :=
  match s with
  | "" => false
  | String a s' => Ascii.eqb a c || str_mem c s'
  end.

(** How often [c] occurs in [s]. *)
Fixpoint str_count (c : ascii) (s : string) : nat :=
  match s with
  | "" => 0%nat
  | String a s' => ((if Ascii.eqb a c then 1 else 0) + str_count c s')%nat
  end.

Definition starts_with_space (s : string) : bool :=
  match s with
  | "" => false
  | String c _ => is_space c
  end.

Fixpoint ends_with_space (s : string) : bool :=
  match s with
  | "" => false
  | String c "" => is_space c
  | String _ s' => ends_with_space s'
  end.

(** ** Vocabulary of the store invariants *)

(** No two rows share an e-mail, a username or a key. *)
Definition users_unique (w : World) : Prop :=
  NoDup (map email (db_users w)) /\
  NoDup (map username (db_users w)) /\
  NoDup (map id (db_users w)).

(** * Properties *)

(** ** Strings *)

Lemma str_app_nil (s : string) : "" +:+ s = s.
Proof. reflexivity. Qed.

Lemma str_app_cons (c : ascii) (a b : string) :
  String c a +:+ b = String c (a +:+ b).
Proof. reflexivity. Qed.

Lemma str_take_app (a b : string) : str_take (String.length a) (a +:+ b) = a.
Proof. induction a as [|c a IH]; simpl; [by destruct b | by rewrite IH]. Qed.

Lemma str_drop_app (a b : string) : str_drop (String.length a) (a +:+ b) = b.
Proof. induction a as [|c a IH]; simpl; [by destruct b | done]. Qed.

Lemma str_length_app (a b : string) :
  String.length (a +:+ b) = (String.length a + String.length b)%nat.
Proof. induction a as [|c a IH]; simpl; [done | by rewrite IH]. Qed.

Lemma digit_value_digit (d : nat) : (d < 10)%nat -> digit_value (digit d) = Some d.
Proof.
  intros Hd. do 10 (destruct d as [|d]; [reflexivity|]). lia.
Qed.

Lemma str_prefix_app (a b : string) : str_prefix a (a +:+ b) = true.
Proof.
  induction a as [|c a IH]; simpl; [done|].
  by rewrite Ascii.eqb_refl, IH.
Qed.

Lemma str_contains_prefix (needle s : string) :
  str_prefix needle s = true -> str_contains needle s = true.
Proof. intros Hp. destruct s; simpl; rewrite Hp; done. Qed.

Lemma str_contains_app (needle a b : string) :
  str_contains needle (a +:+ needle +:+ b) = true.
Proof.
  induction a as [|c a IH].
  - rewrite str_app_nil. apply str_contains_prefix, str_prefix_app.
  - rewrite str_app_cons. simpl. rewrite IH. apply orb_true_r.
Qed.

(** ** The hash format *)

Section HasherFacts.
Context {ext : Externals}.

Lemma parse_encode_hash (rounds : nat) (salt dg : string) :
  (rounds < 100)%nat ->
  String.length salt = bcrypt_salt_chars ->
  parse_hash (encode_hash rounds salt dg) = Some (rounds, salt, dg).
Proof.
  intros Hr Hs. unfold encode_hash, parse_hash, two_digits, bcrypt_ident.
  rewrite !str_app_cons, !str_app_nil.
  rewrite !digit_value_digit
    by (try apply Nat.mod_upper_bound; try apply Nat.Div0.div_lt_upper_bound; lia).
  rewrite <- Hs, str_take_app, str_drop_app, str_length_app.
  replace (_ <? _)%nat with false by (symmetry; apply Nat.ltb_ge; lia).
  do 3 f_equal. symmetry. apply Nat.div_mod_eq.
Qed.

Lemma encode_hash_salt_inj (rounds : nat) (s1 s2 d1 d2 : string) :
  String.length s1 = String.length s2 ->
  encode_hash rounds s1 d1 = encode_hash rounds s2 d2 -> s1 = s2.
Proof.
  intros Hl. unfold encode_hash, two_digits, bcrypt_ident.
  rewrite !str_app_cons, !str_app_nil.
  intros E. repeat (injection E as E).
  apply (f_equal (str_take (String.length s1))) in E.
  rewrite str_take_app in E. rewrite Hl, str_take_app in E. done.
Qed.

Lemma verify_password_pure (p h : string) (w : World) :
  snd (verify_password p h w) = w.
Proof.
  unfold verify_password, pwd_context_verify.
  destruct (parse_hash h) as [[[r s] d]|]; reflexivity.
Qed.

End HasherFacts.

(** ** Credential hasher *)

Section HasherProperties.
Context {ext : Externals}.

Lemma verify_fresh_hash (p salt : string) (w : World) :
  String.length salt = bcrypt_salt_chars ->
  verify_password p
    (encode_hash bcrypt_rounds salt (bcrypt_digest bcrypt_rounds salt p)) w
  = (Returned true, w).
Proof.
  intros Hs. unfold verify_password, pwd_context_verify.
  rewrite parse_encode_hash by (done || (unfold bcrypt_rounds; lia)).
  by rewrite String.eqb_refl.
Qed.

(** C1. For every password [p], verifying [p] against the hash produced for
    [p] returns true; and hashing [p] a second time, with the next salt the
    generator hands out differing from the first (salt uniqueness), gives a
    different hash string that verifies against [p] as well.  Salts have the
    scheme's size. *)
Theorem hash_verifies_and_is_salted (p : string) (w : World) :
  String.length (os_salt (salts_drawn w)) = bcrypt_salt_chars ->
  exists h1 w1,
    get_password_hash p w = (Returned h1, w1) /\
    (forall w', verify_password p h1 w' = (Returned true, w')) /\
    (String.length (os_salt (S (salts_drawn w))) = bcrypt_salt_chars ->
     os_salt (salts_drawn w) <> os_salt (S (salts_drawn w)) ->
     exists h2 w2,
       get_password_hash p w1 = (Returned h2, w2) /\
       h1 <> h2 /\
       (forall w', verify_password p h2 w' = (Returned true, w'))).
Proof.
  intros Hlen. eexists _, _. split; [reflexivity|]. split.
  - intros w'. by apply verify_fresh_hash.
  - intros Hlen' Hne. eexists _, _. split; [reflexivity|]. simpl. split.
    + intros E. apply Hne. eapply encode_hash_salt_inj; [|exact E]. congruence.
    + intros w'. by apply verify_fresh_hash.
Qed.

End HasherProperties.

Lemma hash_verifies_and_is_salted_witness :
  exists h1 w1,
    get_password_hash (ext := sample_externals) "secret1" empty_world
      = (Returned h1, w1) /\
    (forall w', verify_password (ext := sample_externals) "secret1" h1 w'
                = (Returned true, w')) /\
    exists h2 w2,
      get_password_hash (ext := sample_externals) "secret1" w1
        = (Returned h2, w2) /\
      h1 <> h2 /\
      (forall w', verify_password (ext := sample_externals) "secret1" h2 w'
                  = (Returned true, w')).
Proof.
  destruct (hash_verifies_and_is_salted (ext := sample_externals)
              "secret1" empty_world eq_refl)
    as (h1 & w1 & Hh & Hv & Hnext).
  exists h1, w1. split; [exact Hh|]. split; [exact Hv|].
  apply Hnext; [reflexivity | vm_compute; discriminate].
Defined.

(** ** Running the routes *)

Ltac run_M := unfold mbind, M_bind, mret, M_ret, raise, get_world, log_op.

Lemma record_ops_record_ops (l1 l2 : list StoreOp) (w : World) :
  record_ops l2 (record_ops l1 w) = record_ops (l1 ++ l2) w.
Proof. unfold record_ops; simpl. by rewrite <- app_assoc. Qed.

Lemma existsb_find {A : Type} (f : A -> bool) (l : list A) :
  existsb f l = bool_decide (is_Some (List.find f l)).
Proof.
  induction l as [|x l IH]; simpl; [done|].
  destruct (f x); simpl; done.
Qed.

Lemma find_some_iff {A : Type} (f : A -> bool) (l : list A) :
  is_Some (List.find f l) <-> exists x, In x l /\ f x = true.
Proof.
  split.
  - intros [x Hx]. exists x. by apply find_some in Hx.
  - intros (x & Hin & Hf). destruct (List.find f l) eqn:E; [eauto|].
    eapply find_none in E; [|exact Hin]. congruence.
Qed.

Section RouteFacts.
Context {ext : Externals}.
Variable settings : Settings.

Lemma get_user_by_email_run (e : string) (w : World) :
  get_user_by_email e w =
  (Returned (List.find (fun u => String.eqb (email u) e) (db_users w)),
   record_ops [SelectByEmail e] w).
Proof. reflexivity. Qed.

Lemma get_user_by_username_run (n : string) (w : World) :
  get_user_by_username n w =
  (Returned (List.find (fun u => String.eqb (username u) n) (db_users w)),
   record_ops [SelectByUsername n] w).
Proof. reflexivity. Qed.

Lemma register_checks_run (user_data : UserRegister) (w : World) :
  register_checks user_data w =
  if email_taken (reg_email user_data) w then
    (Raised (HTTPError email_conflict),
     record_ops [SelectByEmail (reg_email user_data)] w)
  else if username_taken (reg_username user_data) w then
    (Raised (HTTPError username_conflict),
     record_ops [SelectByEmail (reg_email user_data);
                 SelectByUsername (reg_username user_data)] w)
  else
    (Returned tt,
     record_ops [SelectByEmail (reg_email user_data);
                 SelectByUsername (reg_username user_data)] w).
Proof.
  unfold email_taken, username_taken. rewrite !existsb_find.
  unfold register_checks. run_M. rewrite get_user_by_email_run.
  destruct (bool_decide _); [reflexivity|].
  rewrite get_user_by_username_run. simpl db_users.
  destruct (bool_decide _); by rewrite record_ops_record_ops.
Qed.

Lemma verify_password_run (p h : string) (w : World) :
  verify_password p h w =
  (match check_password p h with
   | Some b => Returned b
   | None => Raised UnknownHashError
   end, w).
Proof.
  unfold verify_password, pwd_context_verify, check_password.
  destruct (parse_hash h) as [[[r s0] d]|]; reflexivity.
Qed.

Lemma issue_for_run (u : User) (w : World) :
  issue_for settings u w = (Returned (issued_token settings u (utcnow w)), w).
Proof.
  unfold issue_for, create_access_token, issued_token, to_encode,
    effective_delta, timedelta_minutes. run_M. reflexivity.
Qed.

Lemma register_create_run (user_data : UserRegister) (w : World) :
  register_create settings user_data w =
  let row := fresh_user user_data w in
  let w1 := record_ops [InsertUser row] (draw_salt w) in
  if email_taken (reg_email user_data) w then
    (Raised (IntegrityError "UNIQUE constraint failed: users.email"
               insert_statement (insert_params row)), w1)
  else if username_taken (reg_username user_data) w then
    (Raised (IntegrityError "UNIQUE constraint failed: users.username"
               insert_statement (insert_params row)), w1)
  else
    (Returned {| message := "User registered successfully";
                 user := model_validate row;
                 token := issued_token settings row (utcnow w) |},
     set_users (db_users w ++ [row]) w1).
Proof.
  unfold register_create, get_password_hash, pwd_context_hash,
    db_add_commit_refresh, email_taken, username_taken.
  run_M. cbn [db_users draw_salt record_ops utcnow].
  fold (fresh_hash user_data w). fold (fresh_user user_data w).
  destruct (existsb _ _); [reflexivity|].
  destruct (existsb _ _); [reflexivity|].
  rewrite issue_for_run. reflexivity.
Qed.

Lemma register_run (user_data : UserRegister) (w : World) :
  register settings user_data w =
  let e := reg_email user_data in
  let n := reg_username user_data in
  let row := fresh_user user_data w in
  if email_taken e w then
    (Raised (HTTPError email_conflict), record_ops [SelectByEmail e] w)
  else if username_taken n w then
    (Raised (HTTPError username_conflict),
     record_ops [SelectByEmail e; SelectByUsername n] w)
  else
    (Returned {| message := "User registered successfully";
                 user := model_validate row;
                 token := issued_token settings row (utcnow w) |},
     set_users (db_users w ++ [row])
       (record_ops [SelectByEmail e; SelectByUsername n; InsertUser row]
          (draw_salt w))).
Proof.
  unfold register. unfold mbind at 1. unfold M_bind.
  rewrite register_checks_run. cbv zeta.
  destruct (email_taken _ w) eqn:He; [reflexivity|].
  destruct (username_taken _ w) eqn:Hn; [reflexivity|].
  rewrite register_create_run. cbv zeta.
  unfold email_taken, username_taken in *. cbn [db_users record_ops].
  rewrite He, Hn. f_equal.
  unfold set_users, record_ops, draw_salt; simpl.
  by rewrite <- app_assoc.
Qed.

Lemma login_run (credentials : UserLogin) (w : World) :
  login settings credentials w =
  let w1 := record_ops [SelectByEmail (login_email credentials)] w in
  match List.find (fun u => String.eqb (email u) (login_email credentials))
          (db_users w) with
  | None => (Raised (HTTPError invalid_credentials), w1)
  | Some u =>
      match check_password (login_password credentials) (hashed_password u) with
      | None => (Raised UnknownHashError, w1)
      | Some false => (Raised (HTTPError invalid_credentials), w1)
      | Some true =>
          (Returned {| message := "Login successful";
                       user := model_validate u;
                       token := issued_token settings u (utcnow w) |}, w1)
      end
  end.
Proof.
  unfold login. unfold mbind at 1. unfold M_bind.
  rewrite get_user_by_email_run. cbv zeta.
  destruct (List.find _ _) as [u|]; [|reflexivity].
  unfold mbind at 1. unfold M_bind. rewrite verify_password_run.
  destruct (check_password _ _) as [[|]|]; reflexivity.
Qed.

End RouteFacts.

(** ** Issued tokens *)

Section TokenProperties.
Context {ext : Externals}.
Variable settings : Settings.

(** C2 (as amended). The token issued on successful registration or login
    carries exactly the claim set {sub: the user's e-mail, user_id: the
    user's id, exp: now + the configured lifetime}; it has no iat claim.  It
    is signed with [settings.secret_key] under [settings.algorithm]. *)
Theorem issued_token_claims (r : AuthResponse) (w w' : World) :
  (exists user_data, register settings user_data w = (Returned r, w')) \/
  (exists credentials, login settings credentials w = (Returned r, w')) ->
  let claims :=
    issued_claims settings (resp_email (user r)) (resp_id (user r)) (utcnow w) in
  access_token (token r)
    = jwt_encode claims (secret_key settings) (algorithm settings) /\
  jws_payload (access_token (token r)) = json_dumps claims /\
  jws_signature (access_token (token r))
    = mac (algorithm settings) (secret_key settings)
        (jws_header (access_token (token r)) +:+ "." +:+ json_dumps claims) /\
  dom claims = {[ "sub"; "user_id"; "exp" ]} /\
  claims !! "sub" = Some (CStr (resp_email (user r))) /\
  claims !! "user_id" = Some (CNum (resp_id (user r))) /\
  claims !! "exp"
    = Some (CNum (utcnow w + 60 * access_token_expire_minutes settings)) /\
  claims !! "iat" = None.
Proof.
  intros Hrun claims.
  assert (access_token (token r)
          = jwt_encode claims (secret_key settings) (algorithm settings)) as Htok.
  { destruct Hrun as [[ud Hrun]|[c Hrun]].
    - rewrite register_run in Hrun. cbv zeta in Hrun.
      destruct (email_taken _ _); [discriminate|].
      destruct (username_taken _ _); [discriminate|].
      injection Hrun as <- <-. reflexivity.
    - rewrite login_run in Hrun. cbv zeta in Hrun.
      destruct (List.find _ _) as [u|]; [|discriminate].
      destruct (check_password _ _) as [[|]|]; try discriminate.
      injection Hrun as <- <-. reflexivity. }
  split; [exact Htok|]. rewrite Htok.
  repeat split; reflexivity.
Qed.

End TokenProperties.

Lemma issued_token_claims_witness :
  exists r w',
    register (ext := sample_externals) default_settings alice_request empty_world
      = (Returned r, w') /\
    access_token (token r)
      = jwt_encode (ext := sample_externals)
          {[ "sub" := CStr "a@x.com"; "user_id" := CNum 1;
             "exp" := CNum 1700001800 ]}
          "your-super-secret-key-change-in-production" "HS256".
Proof.
  eexists _, _. split; [vm_compute; reflexivity|].
  refine (proj1 (issued_token_claims (ext := sample_externals) default_settings
                   _ empty_world _ (or_introl (ex_intro _ alice_request _)))).
  vm_compute; reflexivity.
Defined.

(** C2, as stated, fails: the claims of the token issued by a successful
    registration contain no iat. *)
Lemma registration_token_has_no_iat :
  exists r w' claims,
    register (ext := sample_externals) default_settings alice_request empty_world
      = (Returned r, w') /\
    @json_loads sample_externals (jws_payload (access_token (token r)))
      = Some claims /\
    claims !! "iat" = None.
Proof.
  eexists _, _, _. split; [vm_compute; reflexivity|].
  split; vm_compute; reflexivity.
Qed.

(** ** Login and registration outcomes *)

Section OutcomeProperties.
Context {ext : Externals}.
Variable settings : Settings.

(** C3. For every login request, if no user record matches the supplied
    e-mail, or a record matches but password verification fails, login
    raises one and the same [HTTPException] (401, "Invalid email or
    password", with the same headers) and leaves the world in the same state;
    the response sent is the same in both cases. *)
Theorem login_failure_is_uniform (credentials : UserLogin) (w : World) :
  stored_user (login_email credentials) w = None \/
  (exists u, stored_user (login_email credentials) w = Some u /\
             check_password (login_password credentials) (hashed_password u)
             = Some false) ->
  login settings credentials w
    = (Raised (HTTPError invalid_credentials),
       record_ops [SelectByEmail (login_email credentials)] w) /\
  respond settings 200 "/api/v1/login" (fst (login settings credentials w))
    = {| status := 401;
         body := DetailBody "Invalid email or password";
         response_headers := [("WWW-Authenticate", "Bearer")] |}.
Proof.
  intros Hcase.
  assert (login settings credentials w
          = (Raised (HTTPError invalid_credentials),
             record_ops [SelectByEmail (login_email credentials)] w)) as Hrun.
  { rewrite login_run. cbv zeta. unfold stored_user in Hcase.
    destruct Hcase as [-> | (u & -> & ->)]; reflexivity. }
  split; [exact Hrun|]. rewrite Hrun. reflexivity.
Qed.

(** C9 (as amended). For every successful registration the returned
    message is "User registered successfully", and for every successful
    login it is "Login successful". *)
Theorem success_messages :
  (forall user_data w r w',
     register settings user_data w = (Returned r, w') ->
     message r = "User registered successfully") /\
  (forall credentials w r w',
     login settings credentials w = (Returned r, w') ->
     message r = "Login successful").
Proof.
  split.
  - intros ud w r w' Hrun. rewrite register_run in Hrun. cbv zeta in Hrun.
    destruct (email_taken _ _); [discriminate|].
    destruct (username_taken _ _); [discriminate|].
    by injection Hrun as <- <-.
  - intros c w r w' Hrun. rewrite login_run in Hrun. cbv zeta in Hrun.
    destruct (List.find _ _) as [u|]; [|discriminate].
    destruct (check_password _ _) as [[|]|]; try discriminate.
    by injection Hrun as <- <-.
Qed.

End OutcomeProperties.

Lemma bits_to_pos_to_bits (p : positive) : bits_to_pos (pos_to_bits p) = p.
Proof. induction p as [p IH|p IH|]; simpl; by rewrite ?IH. Qed.

Lemma sample_codec_round_trip (c : gmap string claim) :
  @json_loads sample_externals (@json_dumps sample_externals c) = Some c.
Proof. simpl. rewrite bits_to_pos_to_bits. apply decode_encode. Qed.

Example duplicate_username_is_refused :
  fst (register (ext := sample_externals) default_settings
         duplicate_username_request alice_world)
  = Raised (HTTPError username_conflict).
Proof. vm_compute. reflexivity. Qed.

Example alice_world_is_registered :
  snd (register (ext := sample_externals) default_settings
         alice_request empty_world) = alice_world.
Proof. vm_compute. reflexivity. Qed.

Lemma login_failure_is_uniform_witness :
  login (ext := sample_externals) default_settings
    unknown_email_login alice_world
  = (Raised (HTTPError invalid_credentials),
     record_ops [SelectByEmail "nobody@x.com"] alice_world) /\
  login (ext := sample_externals) default_settings
    wrong_password_login alice_world
  = (Raised (HTTPError invalid_credentials),
     record_ops [SelectByEmail "a@x.com"] alice_world).
Proof.
  split.
  - apply (login_failure_is_uniform (ext := sample_externals)
             default_settings unknown_email_login alice_world).
    left. vm_compute. reflexivity.
  - apply (login_failure_is_uniform (ext := sample_externals)
             default_settings wrong_password_login alice_world).
    right. exists alice_row. split; vm_compute; reflexivity.
Defined.

Lemma success_messages_witness :
  (exists r w',
     register (ext := sample_externals) default_settings alice_request empty_world
       = (Returned r, w') /\
     message r = "User registered successfully") /\
  (exists r w',
     login (ext := sample_externals) default_settings alice_login alice_world
       = (Returned r, w') /\
     message r = "Login successful").
Proof.
  split; eexists _, _; (split; [vm_compute; reflexivity|]).
  - apply (proj1 (success_messages (ext := sample_externals) default_settings)
             alice_request empty_world _ alice_world).
    vm_compute; reflexivity.
  - apply (proj2 (success_messages (ext := sample_externals) default_settings)
             alice_login alice_world _
             (record_ops [SelectByEmail "a@x.com"] alice_world)).
    vm_compute; reflexivity.
Defined.

(** C9, as stated, fails: a successful registration answers "User
    registered successfully", not "registered", and a successful login
    "Login successful", not "login ok". *)
Lemma success_messages_differ_from_spec :
  (exists r w',
     register (ext := sample_externals) default_settings alice_request empty_world
       = (Returned r, w') /\
     message r <> "registered") /\
  (exists r w',
     login (ext := sample_externals) default_settings alice_login alice_world
       = (Returned r, w') /\
     message r <> "login ok").
Proof.
  split; eexists _, _; (split; [vm_compute; reflexivity|]); discriminate.
Qed.

(** ** Registration and the store *)

Section StoreProperties.
Context {ext : Externals}.
Variable settings : Settings.

Lemma email_taken_iff (e : string) (w : World) :
  email_taken e w = true <-> exists u, In u (db_users w) /\ email u = e.
Proof.
  unfold email_taken. rewrite existsb_exists.
  split; intros (u & Hin & Hu); exists u; (split; [done|]);
    by apply String.eqb_eq.
Qed.

Lemma stored_user_iff (e : string) (w : World) :
  is_Some (stored_user e w) <-> exists u, In u (db_users w) /\ email u = e.
Proof.
  unfold stored_user. rewrite find_some_iff.
  split; intros (u & Hin & Hu); exists u; (split; [done|]);
    by apply String.eqb_eq.
Qed.

Lemma stored_user_email (e : string) (w : World) (u : User) :
  stored_user e w = Some u -> In u (db_users w) /\ email u = e.
Proof.
  unfold stored_user. intros Hf. apply find_some in Hf as [Hin He].
  split; [done|]. by apply String.eqb_eq.
Qed.

(** C4. In every run of [register] each write to the user store comes after
    both uniqueness look-ups; and when the request is rejected (for a
    duplicate e-mail or a duplicate username, status 409) nothing is written:
    the trace of the run has no insert and the table is unchanged. *)
Theorem rejected_registration_writes_nothing
    (user_data : UserRegister) (w w' : World) (r : outcome AuthResponse) :
  register settings user_data w = (r, w') ->
  exists ops,
    db_trace w' = db_trace w ++ ops /\
    writes_follow_checks (reg_email user_data) (reg_username user_data) ops /\
    forall exc, r = Raised exc ->
      (exc = HTTPError email_conflict \/ exc = HTTPError username_conflict) /\
      read_only ops /\
      db_users w' = db_users w.
Proof.
  rewrite register_run. cbv zeta.
  destruct (email_taken _ _); [|destruct (username_taken _ _)];
    intros Hrun; injection Hrun as <- <-; eexists; (split; [reflexivity|]).
  - split.
    + intros [|[|i]] u Hi; discriminate Hi.
    + intros exc [= <-]. split; [by left|]. split; [|reflexivity].
      intros u [Hu|[]]. discriminate Hu.
  - split.
    + intros [|[|[|i]]] u Hi; discriminate Hi.
    + intros exc [= <-]. split; [by right|]. split; [|reflexivity].
      intros u [Hu|[Hu|[]]]; discriminate Hu.
  - split.
    + intros [|[|[|i]]] u Hi; try discriminate Hi.
      exists 0%nat, 1%nat. repeat split; lia.
    + intros exc Hexc. discriminate Hexc.
Qed.

(** C5 (as amended). Registration's duplicate-e-mail check and login's user
    look-up match the supplied e-mail against the stored one by exact string
    equality: a look-up returns a record exactly when some stored record has
    that very e-mail, registration is refused with "Email already
    registered" exactly then, and a login that succeeds is for a record whose
    stored e-mail is the supplied string. *)
Theorem email_match_is_exact :
  (forall e w,
     get_user_by_email e w = (Returned (stored_user e w),
                              record_ops [SelectByEmail e] w) /\
     (is_Some (stored_user e w) <->
      exists u, In u (db_users w) /\ email u = e)) /\
  (forall user_data w,
     (exists w', register settings user_data w
                 = (Raised (HTTPError email_conflict), w')) <->
     (exists u, In u (db_users w) /\ email u = reg_email user_data)) /\
  (forall credentials w r w',
     login settings credentials w = (Returned r, w') ->
     exists u, In u (db_users w) /\ email u = login_email credentials /\
               user r = model_validate u) /\
  (forall credentials w,
     (forall u, In u (db_users w) -> email u <> login_email credentials) ->
     fst (login settings credentials w)
     = Raised (HTTPError invalid_credentials)).
Proof.
  split; [|split; [|split]].
  - intros e w. split; [reflexivity | apply stored_user_iff].
  - intros ud w. rewrite <- email_taken_iff. rewrite register_run. cbv zeta.
    destruct (email_taken _ _); [|destruct (username_taken _ _)].
    + split; [done | eauto].
    + split; [|done]. intros [w' Hrun]. discriminate Hrun.
    + split; [|done]. intros [w' Hrun]. discriminate Hrun.
  - intros c w r w' Hrun. rewrite login_run in Hrun. cbv zeta in Hrun.
    fold (stored_user (login_email c) w) in Hrun.
    destruct (stored_user _ _) as [u|] eqn:Hu; [|discriminate].
    apply stored_user_email in Hu as [Hin He].
    destruct (check_password _ _) as [[|]|]; try discriminate.
    injection Hrun as <- <-. eauto.
  - intros c w Hnone. rewrite login_run. cbv zeta.
    fold (stored_user (login_email c) w).
    destruct (stored_user _ _) as [u|] eqn:Hu; [|reflexivity].
    apply stored_user_email in Hu as [Hin He]. by apply Hnone in Hin.
Qed.

End StoreProperties.

Lemma rejected_registration_writes_nothing_witness :
  exists ops,
    db_trace (record_ops [SelectByEmail "a@x.com"] alice_world)
      = db_trace alice_world ++ ops /\
    read_only ops /\
    db_users (record_ops [SelectByEmail "a@x.com"] alice_world)
      = db_users alice_world.
Proof.
  destruct (rejected_registration_writes_nothing (ext := sample_externals)
              default_settings duplicate_email_request alice_world
              (record_ops [SelectByEmail "a@x.com"] alice_world)
              (Raised (HTTPError email_conflict)))
    as (ops & Htrace & _ & Hrej).
  - vm_compute. reflexivity.
  - exists ops. split; [exact Htrace|]. exact (proj2 (Hrej _ eq_refl)).
Defined.

Lemma email_match_is_exact_witness :
  exists w', register (ext := sample_externals) default_settings
               duplicate_email_request alice_world
             = (Raised (HTTPError email_conflict), w').
Proof.
  apply (proj1 (proj2 (email_match_is_exact (ext := sample_externals)
                         default_settings))
           duplicate_email_request alice_world).
  exists alice_row. split; [by left | reflexivity].
Defined.

(** C5, as stated, fails: with "a@x.com" stored, the same address written
    "A@x.com" matches no record: the look-up returns nothing, login is
    refused although the password is right, and registration accepts a second
    account. *)
Lemma email_match_is_case_sensitive :
  In alice_row (db_users alice_world) /\
  str_lower "A@x.com" = str_lower (email alice_row) /\
  fst (get_user_by_email "A@x.com" alice_world) = Returned None /\
  fst (login (ext := sample_externals) default_settings
         mixed_case_login alice_world)
    = Raised (HTTPError invalid_credentials) /\
  (exists r w', login (ext := sample_externals) default_settings
                  alice_login alice_world = (Returned r, w')) /\
  (exists r w', register (ext := sample_externals) default_settings
                  mixed_case_request alice_world = (Returned r, w') /\
                map email (db_users w') = ["a@x.com"; "A@x.com"]).
Proof.
  split; [by left|]. split; [reflexivity|]. split; [reflexivity|].
  split; [vm_compute; reflexivity|].
  split; eexists _, _; [|split]; vm_compute; reflexivity.
Qed.

(** ** A uniqueness violation at write time *)

Section RaceProperties.
Context {ext : Externals}.
Variable settings : Settings.

(** C6 (as amended). When the store refuses the insert of a registration for
    a uniqueness violation at write time (another request wrote the same
    e-mail or username after the checks), the commit raises
    [IntegrityError], which [register] does not catch: the application
    answers through [global_exception_handler] with status 500 and "An
    unexpected error occurred", and no row is added. *)
Theorem write_time_violation_is_server_error
    (other : M unit) (user_data : UserRegister) (w w0 w1 : World) :
  register_checks user_data w = (Returned tt, w0) ->
  other w0 = (Returned tt, w1) ->
  email_taken (reg_email user_data) w1 = true \/
  username_taken (reg_username user_data) w1 = true ->
  exists orig w2,
    let exc := IntegrityError orig insert_statement
                 (insert_params (fresh_user user_data w1)) in
    register_interleaved settings other user_data w = (Raised exc, w2) /\
    db_users w2 = db_users w1 /\
    respond settings 201 "/api/v1/register" (Raised exc)
    = {| status := 500;
         body := UnexpectedBody "An unexpected error occurred"
                   (if debug settings then str_exc exc
                    else "Internal Server Error")
                   "/api/v1/register";
         response_headers := [] |}.
Proof.
  intros Hchecks Hother Htaken.
  unfold register_interleaved. unfold mbind at 1. unfold M_bind.
  rewrite Hchecks. unfold mbind at 1. unfold M_bind. rewrite Hother.
  rewrite register_create_run. cbv zeta.
  destruct (email_taken _ w1) eqn:He.
  - eexists _, _. split; [reflexivity|]. split; reflexivity.
  - destruct Htaken as [Ht|Ht]; [discriminate|]. rewrite Ht.
    eexists _, _. split; [reflexivity|]. split; reflexivity.
Qed.

End RaceProperties.

Lemma write_time_violation_is_server_error_witness :
  exists orig params w2,
    register_interleaved (ext := sample_externals) default_settings
      rival_commit alice_request empty_world
    = (Raised (IntegrityError orig insert_statement params), w2).
Proof.
  destruct (write_time_violation_is_server_error (ext := sample_externals)
              default_settings rival_commit alice_request empty_world
              (record_ops [SelectByEmail "a@x.com"; SelectByUsername "alice"]
                 empty_world)
              (snd (rival_commit
                 (record_ops [SelectByEmail "a@x.com"; SelectByUsername "alice"]
                    empty_world))))
    as (orig & w2 & Hrun & _).
  - vm_compute. reflexivity.
  - vm_compute. reflexivity.
  - left. vm_compute. reflexivity.
  - exists orig. eexists _, w2. exact Hrun.
Defined.

(** C6, as stated, fails: the pre-checks pass, a concurrent registration
    commits the same e-mail, and the violation raised by the insert is
    answered with status 500, not with the 409 of the pre-check. *)
Lemma write_time_violation_is_not_409 :
  fst (register_checks alice_request empty_world) = Returned tt /\
  (let r := fst (register_interleaved (ext := sample_externals)
                   default_settings rival_commit alice_request empty_world) in
   respond default_settings 201 "/api/v1/register" r
   = {| status := 500;
        body := UnexpectedBody "An unexpected error occurred"
                  "Internal Server Error" "/api/v1/register";
        response_headers := [] |}) /\
  (let r := fst (register (ext := sample_externals) default_settings
                   duplicate_email_request alice_world) in
   respond default_settings 201 "/api/v1/register" r
   = {| status := 409;
        body := DetailBody "Email already registered";
        response_headers := [] |}).
Proof. repeat split; vm_compute; reflexivity. Qed.

(** ** Token verification *)

Section VerifierProperties.
Context {ext : Externals}.
Variable settings : Settings.

Lemma verify_bad_signature (key alg sig : string) (now : Z) (t : Jws) :
  sig <> mac alg key (jws_header t +:+ "." +:+ jws_payload t) ->
  verify_token key alg now (with_signature sig t) = inl BadSignature.
Proof.
  intros Hne. unfold verify_token, with_signature. simpl.
  destruct (String.eqb _ sig) eqn:E; [|reflexivity].
  apply String.eqb_eq in E. congruence.
Qed.

Lemma verify_signed (key alg : string) (now : Z) (claims : gmap string claim) :
  json_loads (json_dumps claims) = Some claims ->
  verify_token key alg now (jwt_encode claims key alg)
  = match claims !! "exp" with
    | Some (CNum e) => if e <? now then inl Expired else inr claims
    | _ => inl Malformed
    end.
Proof.
  intros Hrt. unfold verify_token, jwt_encode. simpl.
  by rewrite String.eqb_refl, Hrt.
Qed.

(** C7. Verification checks the signature first and distinguishes
    [BadSignature], [Expired] and [Malformed].  For every token issued by
    [create_access_token]: verified with any other signature, at any time, it
    fails with [BadSignature]; and, its payload decoding to the claims it was
    built from, verified after its expiry it fails with [Expired] (not with
    [BadSignature]), while up to its expiry the claim set is returned.  Any
    token whose signature does not match fails with [BadSignature] whatever
    its payload and the time; a correctly signed token whose payload does
    not decode fails with [Malformed]. *)
Theorem issued_token_verification
    (data : gmap string claim) (expires_delta : option Z) (w : World) :
  (forall t now,
     jws_signature t
       <> mac (algorithm settings) (secret_key settings)
            (jws_header t +:+ "." +:+ jws_payload t) ->
     verify_token (secret_key settings) (algorithm settings) now t
     = inl BadSignature) /\
  (forall h p now,
     json_loads p = None ->
     verify_token (secret_key settings) (algorithm settings) now
       {| jws_header := h; jws_payload := p;
          jws_signature := mac (algorithm settings) (secret_key settings)
                             (h +:+ "." +:+ p) |}
     = inl Malformed) /\
  exists t,
    create_access_token settings data expires_delta w = (Returned t, w) /\
    (forall sig now,
       sig <> jws_signature t ->
       verify_token (secret_key settings) (algorithm settings) now
         (with_signature sig t) = inl BadSignature) /\
    (json_loads (jws_payload t)
       = Some (to_encode settings data expires_delta (utcnow w)) ->
     forall now,
       (utcnow w + effective_delta settings expires_delta < now ->
        verify_token (secret_key settings) (algorithm settings) now t
        = inl Expired) /\
       (now <= utcnow w + effective_delta settings expires_delta ->
        verify_token (secret_key settings) (algorithm settings) now t
        = inr (to_encode settings data expires_delta (utcnow w)))).
Proof.
  split; [|split].
  { intros [h p sig] now Hne.
    by apply (verify_bad_signature _ _ sig now
                {| jws_header := h; jws_payload := p; jws_signature := sig |}). }
  { intros h p now Hp. unfold verify_token. simpl.
    by rewrite String.eqb_refl, Hp. }
  eexists. split; [reflexivity|]. split.
  - intros sig now Hne. by apply verify_bad_signature.
  - intros Hrt now. simpl in Hrt.
    rewrite (verify_signed _ _ _ _ Hrt).
    unfold to_encode at 1 3. rewrite lookup_insert_eq.
    split; intros Hnow.
    + by apply Z.ltb_lt in Hnow as ->.
    + by apply Z.ltb_ge in Hnow as ->.
Qed.

End VerifierProperties.

Lemma issued_token_verification_witness :
  exists t,
    create_access_token (ext := sample_externals) default_settings
      {[ "sub" := CStr "a@x.com"; "user_id" := CNum 1 ]} None alice_world
    = (Returned t, alice_world) /\
    verify_token (ext := sample_externals)
      "your-super-secret-key-change-in-production" "HS256" 1700001801 t
    = inl Expired /\
    verify_token (ext := sample_externals)
      "your-super-secret-key-change-in-production" "HS256" 1700001801
      (with_signature "forged" t)
    = inl BadSignature.
Proof.
  destruct (issued_token_verification (ext := sample_externals)
              default_settings
              {[ "sub" := CStr "a@x.com"; "user_id" := CNum 1 ]} None
              alice_world)
    as (_ & _ & t & Hrun & Hsig & Hexp).
  exists t. split; [exact Hrun|]. split.
  - apply Hexp.
    + injection Hrun as <-. vm_compute. reflexivity.
    + vm_compute. reflexivity.
  - apply Hsig. injection Hrun as <-. vm_compute. discriminate.
Defined.

(** ** What the outputs depend on *)

Section OutputProperties.
Context {ext : Externals}.
Variable settings : Settings.

Lemma cons_eq_inv {A : Type} (x y : A) (l l' : list A) :
  x :: l = y :: l' -> x = y /\ l = l'.
Proof. intros E. by injection E. Qed.

Lemma some_eq_inv {A : Type} (x y : A) : Some x = Some y -> x = y.
Proof. intros E. by injection E. Qed.

Lemma issued_token_public (u1 u2 : User) (now : Z) :
  model_validate u1 = model_validate u2 ->
  issued_token settings u1 now = issued_token settings u2 now.
Proof.
  intros Hv. unfold issued_token.
  assert (email u1 = email u2) as -> by exact (f_equal resp_email Hv).
  assert (id u1 = id u2) as -> by exact (f_equal resp_id Hv).
  reflexivity.
Qed.

Lemma find_by_email_public (e : string) (l1 l2 : list User) :
  map model_validate l1 = map model_validate l2 ->
  option_map model_validate
    (List.find (fun u => String.eqb (email u) e) l1)
  = option_map model_validate
      (List.find (fun u => String.eqb (email u) e) l2).
Proof.
  revert l2. induction l1 as [|u1 l1 IH]; intros [|u2 l2] Hm;
    try discriminate Hm; [reflexivity|].
  apply cons_eq_inv in Hm as [Hu Hl]. simpl.
  assert (email u1 = email u2) as -> by exact (f_equal resp_email Hu).
  destruct (String.eqb _ _); simpl; [by rewrite Hu | by apply IH].
Qed.

Lemma next_id_public (l1 l2 : list User) :
  map model_validate l1 = map model_validate l2 -> next_id l1 = next_id l2.
Proof.
  unfold next_id. intros Hm. f_equal. revert l2 Hm.
  induction l1 as [|u1 l1 IH]; intros [|u2 l2] Hm;
    try discriminate Hm; [reflexivity|].
  apply cons_eq_inv in Hm as [Hu Hl]. simpl.
  assert (id u1 = id u2) as -> by exact (f_equal resp_id Hu).
  by rewrite (IH l2).
Qed.

(** C8 (as amended). A successful response does not vary with the stored
    hashes or with the plaintext presented: two successful logins (or two
    successful registrations) whose requests agree on everything but the
    password, run in worlds that agree on everything but the stored hashes,
    return the same response; the returned user view has no hash field.
    Every [HTTPException] the routes raise is one of three fixed values.
    With [debug] off, [global_exception_handler] answers with fixed strings
    and the request path, whatever the exception; with [debug] on, its
    [error] field is [str(exc)]. *)
Theorem outputs_do_not_vary_with_secrets :
  (forall u h, model_validate (with_hash h u) = model_validate u) /\
  (forall c1 c2 w1 w2 r1 r2 w1' w2',
     same_public w1 w2 ->
     login_email c1 = login_email c2 ->
     login settings c1 w1 = (Returned r1, w1') ->
     login settings c2 w2 = (Returned r2, w2') ->
     r1 = r2) /\
  (forall d1 d2 w1 w2 r1 r2 w1' w2',
     same_public w1 w2 ->
     reg_email d1 = reg_email d2 ->
     reg_username d1 = reg_username d2 ->
     reg_full_name d1 = reg_full_name d2 ->
     register settings d1 w1 = (Returned r1, w1') ->
     register settings d2 w2 = (Returned r2, w2') ->
     r1 = r2) /\
  (forall w e w',
     (exists d, register settings d w = (Raised (HTTPError e), w')) \/
     (exists c, login settings c w = (Raised (HTTPError e), w')) ->
     e = email_conflict \/ e = username_conflict \/ e = invalid_credentials) /\
  (debug settings = false ->
   forall path exc,
     global_exception_handler settings path exc
     = {| status := 500;
          body := UnexpectedBody "An unexpected error occurred"
                    "Internal Server Error" path;
          response_headers := [] |}) /\
  (debug settings = true ->
   forall path exc,
     global_exception_handler settings path exc
     = {| status := 500;
          body := UnexpectedBody "An unexpected error occurred"
                    (str_exc exc) path;
          response_headers := [] |}).
Proof.
  split; [reflexivity|].
  split; [|split; [|split; [|split]]].
  - intros c1 c2 w1 w2 r1 r2 w1' w2' [Hrows Hnow] Hmail Hrun1 Hrun2.
    rewrite login_run in Hrun1, Hrun2. cbv zeta in Hrun1, Hrun2.
    pose proof (find_by_email_public (login_email c1) _ _ Hrows) as Hfind.
    rewrite <- Hmail in Hrun2.
    destruct (List.find _ (db_users w1)) as [u1|]; [|discriminate].
    destruct (List.find _ (db_users w2)) as [u2|]; [|discriminate].
    apply some_eq_inv in Hfind as Hview.
    destruct (check_password _ (hashed_password u1)) as [[|]|];
      try discriminate.
    destruct (check_password _ (hashed_password u2)) as [[|]|];
      try discriminate.
    injection Hrun1 as <- <-. injection Hrun2 as <- <-.
    by rewrite Hview, (issued_token_public _ _ _ Hview), Hnow.
  - intros d1 d2 w1 w2 r1 r2 w1' w2' [Hrows Hnow] Hmail Hname Hfull Hrun1 Hrun2.
    rewrite register_run in Hrun1, Hrun2. cbv zeta in Hrun1, Hrun2.
    destruct (email_taken _ w1); [discriminate|].
    destruct (username_taken _ w1); [discriminate|].
    destruct (email_taken _ w2); [discriminate|].
    destruct (username_taken _ w2); [discriminate|].
    injection Hrun1 as <- <-. injection Hrun2 as <- <-.
    assert (model_validate (fresh_user d1 w1)
            = model_validate (fresh_user d2 w2)) as Hview.
    { unfold model_validate, fresh_user; simpl.
      by rewrite (next_id_public _ _ Hrows), Hmail, Hname, Hfull, Hnow. }
    by rewrite Hview, (issued_token_public _ _ _ Hview), Hnow.
  - intros w e w' [[d Hrun]|[c Hrun]].
    + rewrite register_run in Hrun. cbv zeta in Hrun.
      destruct (email_taken _ _); [|destruct (username_taken _ _)];
        [left | right; left | discriminate]; congruence.
    + rewrite login_run in Hrun. cbv zeta in Hrun. right; right.
      destruct (List.find _ _) as [u|]; [|congruence].
      destruct (check_password _ _) as [[|]|]; try discriminate.
      congruence.
  - intros Hdebug path exc. unfold global_exception_handler.
    by rewrite Hdebug.
  - intros Hdebug path exc. unfold global_exception_handler.
    by rewrite Hdebug.
Qed.

End OutputProperties.

Lemma outputs_do_not_vary_with_secrets_witness :
  (exists r w1' w2',
     login (ext := sample_externals) default_settings alice_login alice_world
       = (Returned r, w1') /\
     login (ext := sample_externals) default_settings hunter_login
       alice_world_rehashed = (Returned r, w2')) /\
  global_exception_handler default_settings "/api/v1/register" UnknownHashError
  = {| status := 500;
       body := UnexpectedBody "An unexpected error occurred"
                 "Internal Server Error" "/api/v1/register";
       response_headers := [] |}.
Proof.
  pose proof (outputs_do_not_vary_with_secrets (ext := sample_externals)
                default_settings) as (_ & Hlogin & _ & _ & Hhandler & _).
  split.
  - destruct (login (ext := sample_externals) default_settings alice_login
                alice_world) as [[r1|e1] w1'] eqn:H1;
      [|vm_compute in H1; discriminate H1].
    destruct (login (ext := sample_externals) default_settings hunter_login
                alice_world_rehashed) as [[r2|e2] w2'] eqn:H2;
      [|vm_compute in H2; discriminate H2].
    exists r1, w1', w2'. split; [reflexivity|].
    rewrite (Hlogin alice_login hunter_login alice_world alice_world_rehashed
               r1 r2 w1' w2'); [reflexivity| |reflexivity|exact H1|exact H2].
    split; reflexivity.
  - apply Hhandler. reflexivity.
Defined.

(** C8, as stated, fails: with [debug] on, the answer to an insert refused
    at write time carries [str(exc)], in which the ORM lists the bound
    parameters of the statement, the stored hash among them. *)
Lemma debug_error_exposes_stored_hash :
  fresh_hash (ext := sample_externals) alice_request empty_world
    = "$2b$12$00saltsaltsaltsaltsalt4814" /\
  exists d err path,
    body (respond debug_settings 201 "/api/v1/register"
            (fst (register_interleaved (ext := sample_externals) debug_settings
                    rival_commit alice_request empty_world)))
      = UnexpectedBody d err path /\
    str_contains "$2b$12$00saltsaltsaltsaltsalt4814" err = true.
Proof.
  split; [vm_compute; reflexivity|].
  eexists _, _, _. split; vm_compute; reflexivity.
Qed.

(** ** Login and password length *)

Section ValidationProperties.
Context {ext : Externals}.
Variable settings : Settings.

Lemma post_login_valid (b : UserLogin) (w : World) (e : string) :
  validate_email (login_email b) = Some e ->
  post_login settings b w =
  (respond settings 200 "/api/v1/login"
     (fst (login settings
             {| login_email := e; login_password := login_password b |} w)),
   snd (login settings
          {| login_email := e; login_password := login_password b |} w)).
Proof.
  intros He. unfold post_login, parse_UserLogin. rewrite He.
  by destruct (login _ _ _).
Qed.

(** C10. Login puts no length constraint on the password: for every login
    body with a valid e-mail and a password outside the registration bounds
    [6,100], the schema accepts the body with the password as given, the
    answer is not a validation error (422), the look-up by e-mail is made,
    and when no record matches or the password does not verify the answer is
    the 401 "Invalid email or password" -- whereas the registration schema
    rejects the same password. *)
Theorem login_accepts_any_password_length
    (b : UserLogin) (w : World) (e : string) :
  validate_email (login_email b) = Some e ->
  length_between 6 100 (login_password b) = false ->
  parse_UserLogin b
    = inr {| login_email := e; login_password := login_password b |} /\
  status (fst (post_login settings b w)) <> 422 /\
  db_trace (snd (post_login settings b w)) = db_trace w ++ [SelectByEmail e] /\
  (stored_user e w = None \/
   (exists u, stored_user e w = Some u /\
              check_password (login_password b) (hashed_password u)
              = Some false) ->
   fst (post_login settings b w)
   = {| status := 401;
        body := DetailBody "Invalid email or password";
        response_headers := [("WWW-Authenticate", "Bearer")] |}) /\
  (forall rb, reg_password rb = login_password b ->
     exists fields, parse_UserRegister rb = inl fields /\ In "password" fields).
Proof.
  intros He Hlen.
  split; [by unfold parse_UserLogin; rewrite He|].
  rewrite (post_login_valid _ _ _ He). cbn [fst snd].
  rewrite login_run. cbv zeta. cbn [login_email login_password].
  fold (stored_user e w).
  split; [|split; [|split]].
  - destruct (stored_user e w) as [u|]; [|discriminate].
    destruct (check_password _ _) as [[|]|]; discriminate.
  - destruct (stored_user e w) as [u|]; [|reflexivity].
    destruct (check_password _ _) as [[|]|]; reflexivity.
  - intros [-> | (u & -> & ->)]; reflexivity.
  - intros rb Hpw. unfold parse_UserRegister. rewrite Hpw, Hlen.
    set (errs := _ ++ _ ++ _ ++ _).
    assert (In "password" errs) as Hin.
    { unfold errs. rewrite !in_app_iff. right; right; left. by left. }
    exists errs. split; [|exact Hin].
    destruct errs; [destruct Hin|]. reflexivity.
Qed.

End ValidationProperties.

Lemma login_accepts_any_password_length_witness :
  status (fst (post_login (ext := sample_externals) default_settings
                 empty_password_login alice_world)) <> 422 /\
  fst (post_login (ext := sample_externals) default_settings
         empty_password_login alice_world)
  = {| status := 401;
       body := DetailBody "Invalid email or password";
       response_headers := [("WWW-Authenticate", "Bearer")] |}.
Proof.
  destruct (login_accepts_any_password_length (ext := sample_externals)
              default_settings empty_password_login alice_world "a@x.com")
    as (_ & Hstatus & _ & Hfail & _).
  - vm_compute. reflexivity.
  - vm_compute. reflexivity.
  - split; [exact Hstatus|]. apply Hfail.
    right. exists alice_row. split; vm_compute; reflexivity.
Defined.

(** * Further properties of the code *)

(** ** [Settings.cors_origins] *)

Lemma split_on_nonempty (sep : ascii) (s : string) : split_on sep s <> [].
Proof.
  destruct s as [|c s]; simpl; [done|].
  destruct (Ascii.eqb c sep); [done|]. by destruct (split_on sep s).
Qed.

Lemma split_on_length (sep : ascii) (s : string) :
  List.length (split_on sep s) = S (str_count sep s).
Proof.
  induction s as [|c s IH]; simpl; [done|].
  destruct (Ascii.eqb c sep); simpl; [by rewrite IH|].
  pose proof (split_on_nonempty sep s).
  destruct (split_on sep s); [done|]. exact IH.
Qed.

Lemma split_on_no_sep (sep : ascii) (s x : string) :
  In x (split_on sep s) -> str_mem sep x = false.
Proof.
  revert x. induction s as [|c s IH]; simpl; intros x.
  - intros [<-|[]]. reflexivity.
  - destruct (Ascii.eqb c sep) eqn:E.
    + intros [<-|Hin]; [reflexivity | by apply IH].
    + pose proof (split_on_nonempty sep s).
      destruct (split_on sep s) as [|y r]; [done|].
      intros [<-|Hin].
      * simpl. rewrite E. simpl. apply IH. by left.
      * apply IH. by right.
Qed.

Lemma str_join_cons (sep x : string) (y : string) (l : list string) :
  str_join sep (x :: y :: l) = x +:+ sep +:+ str_join sep (y :: l).
Proof. reflexivity. Qed.

Lemma join_split_on (sep : ascii) (s : string) :
  str_join (String sep "") (split_on sep s) = s.
Proof.
  induction s as [|c s IH]; simpl; [done|].
  pose proof (split_on_nonempty sep s) as Hne.
  destruct (Ascii.eqb c sep) eqn:E.
  - apply Ascii.eqb_eq in E as ->.
    destruct (split_on sep s) as [|y r]; [done|].
    rewrite str_join_cons, IH. reflexivity.
  - destruct (split_on sep s) as [|y r]; [done|].
    destruct r as [|z r].
    + simpl in *. by rewrite IH.
    + rewrite str_join_cons. rewrite str_join_cons in IH.
      rewrite str_app_cons. by rewrite IH.
Qed.

Lemma split_on_app (sep : ascii) (x s : string) :
  str_mem sep x = false ->
  split_on sep (x +:+ String sep s) = x :: split_on sep s.
Proof.
  induction x as [|c x IH]; intros Hx.
  - rewrite str_app_nil. simpl. by rewrite Ascii.eqb_refl.
  - simpl in Hx. apply orb_false_elim in Hx as [Hc Hx].
    rewrite str_app_cons. simpl. rewrite Hc. by rewrite IH.
Qed.

Lemma split_on_single (sep : ascii) (x : string) :
  str_mem sep x = false -> split_on sep x = [x].
Proof.
  induction x as [|c x IH]; intros Hx; [done|].
  simpl in Hx. apply orb_false_elim in Hx as [Hc Hx].
  simpl. rewrite Hc. by rewrite IH.
Qed.

Lemma split_on_join (sep : ascii) (l : list string) :
  l <> [] ->
  (forall x, In x l -> str_mem sep x = false) ->
  split_on sep (str_join (String sep "") l) = l.
Proof.
  induction l as [|x l IH]; [done|]. intros _ Hl.
  destruct l as [|y l].
  - simpl. apply split_on_single, Hl. by left.
  - rewrite str_join_cons, str_app_cons, str_app_nil.
    rewrite split_on_app by (apply Hl; by left).
    f_equal. apply IH; [done|]. intros z Hz. apply Hl. by right.
Qed.

Lemma lstrip_no_leading_space (s : string) : starts_with_space (lstrip s) = false.
Proof.
  induction s as [|c s IH]; simpl; [done|].
  destruct (is_space c) eqn:E; [exact IH | simpl; exact E].
Qed.

Lemma rstrip_no_trailing_space (s : string) : ends_with_space (rstrip s) = false.
Proof.
  induction s as [|c s IH]; simpl; [done|].
  destruct (rstrip s) as [|d r].
  - destruct (is_space c) eqn:E; simpl; [done | exact E].
  - exact IH.
Qed.

Lemma rstrip_keeps_head (s : string) :
  starts_with_space s = false -> starts_with_space (rstrip s) = false.
Proof.
  destruct s as [|c s]; simpl; [done|]. intros Hc.
  destruct (rstrip s); [rewrite Hc|]; simpl; exact Hc.
Qed.

Lemma lstrip_keeps_absent (c : ascii) (s : string) :
  str_mem c s = false -> str_mem c (lstrip s) = false.
Proof.
  induction s as [|a s IH]; simpl; [done|]. intros Hs.
  apply orb_false_elim in Hs as [Ha Hs].
  destruct (is_space a); [by apply IH | simpl; by rewrite Ha, Hs].
Qed.

Lemma rstrip_keeps_absent (c : ascii) (s : string) :
  str_mem c s = false -> str_mem c (rstrip s) = false.
Proof.
  induction s as [|a s IH]; simpl; [done|]. intros Hs.
  apply orb_false_elim in Hs as [Ha Hs]. specialize (IH Hs).
  destruct (rstrip s) as [|d r].
  - destruct (is_space a); simpl; [done | by rewrite Ha].
  - change (str_mem c (String a (String d r))) with
      (Ascii.eqb a c || str_mem c (String d r)).
    by rewrite Ha, IH.
Qed.

Lemma lstrip_id (s : string) : starts_with_space s = false -> lstrip s = s.
Proof. destruct s as [|c s]; simpl; [done|]. by intros ->. Qed.

Lemma rstrip_id (s : string) : ends_with_space s = false -> rstrip s = s.
Proof.
  induction s as [|c s IH]; [done|]. destruct s as [|d s].
  - simpl. by intros ->.
  - intros Hs. change (ends_with_space (String d s) = false) in Hs.
    specialize (IH Hs). simpl in *. by rewrite IH.
Qed.

Lemma strip_id (s : string) :
  starts_with_space s = false -> ends_with_space s = false -> strip s = s.
Proof. intros Hh Ht. unfold strip. by rewrite lstrip_id, rstrip_id. Qed.

(** X1. [cors_origins] never returns an empty list: the wildcard setting
    gives the single entry "*", and any other setting gives one entry more
    than it has commas (so an empty setting gives one empty origin). *)
Theorem cors_origins_count (settings : Settings) :
  List.length (cors_origins settings)
  = if String.eqb (allowed_origins settings) "*" then 1%nat
    else S (str_count "," (allowed_origins settings)).
Proof.
  unfold cors_origins. destruct (String.eqb _ _); [reflexivity|].
  by rewrite length_map, split_on_length.
Qed.

(** X2. Every entry of [cors_origins] is stripped and comma-free: it neither
    starts nor ends with a whitespace character and contains no comma. *)
Theorem cors_origins_entries_clean (settings : Settings) (o : string) :
  In o (cors_origins settings) ->
  starts_with_space o = false /\ ends_with_space o = false /\
  str_mem "," o = false.
Proof.
  unfold cors_origins. destruct (String.eqb _ _).
  - intros [<-|[]]. by vm_compute.
  - rewrite in_map_iff. intros (x & <- & Hx). unfold strip.
    split; [apply rstrip_keeps_head, lstrip_no_leading_space|].
    split; [apply rstrip_no_trailing_space|].
    apply rstrip_keeps_absent, lstrip_keeps_absent.
    eapply split_on_no_sep, Hx.
Qed.

(** X3. Round trip: a non-empty list of origins, none of which contains a
    comma or starts or ends with whitespace, is read back unchanged from the
    comma-joined setting. *)
Theorem cors_origins_of_joined (settings : Settings) (l : list string) :
  l <> [] ->
  (forall x, In x l ->
     str_mem "," x = false /\ starts_with_space x = false /\
     ends_with_space x = false) ->
  cors_origins (with_allowed_origins (str_join "," l) settings) = l.
Proof.
  intros Hne Hl.
  assert (split_on "," (str_join "," l) = l) as Hsplit.
  { apply split_on_join; [done|]. intros x Hx. by apply Hl. }
  unfold cors_origins. cbn [allowed_origins with_allowed_origins].
  destruct (String.eqb _ _) eqn:E.
  - apply String.eqb_eq in E. rewrite E in Hsplit. by rewrite <- Hsplit.
  - rewrite Hsplit. clear Hsplit Hne E.
    induction l as [|x l IH]; [done|]. simpl. f_equal.
    + destruct (Hl x) as (_ & Hh & Ht); [by left|]. by apply strip_id.
    + apply IH. intros y Hy. apply Hl. by right.
Qed.

Lemma cors_origins_entries_clean_witness :
  starts_with_space "https://b.example" = false /\
  ends_with_space "https://b.example" = false /\
  str_mem "," "https://b.example" = false.
Proof.
  apply (cors_origins_entries_clean
           (with_allowed_origins "https://a.example , https://b.example "
              default_settings)).
  vm_compute. right. by left.
Defined.

Lemma cors_origins_of_joined_witness :
  cors_origins
    (with_allowed_origins "https://a.example,https://b.example" default_settings)
  = ["https://a.example"; "https://b.example"].
Proof.
  apply (cors_origins_of_joined default_settings
           ["https://a.example"; "https://b.example"]); [done|].
  intros x [<-|[<-|[]]]; by vm_compute.
Defined.

(** ** The [users] table under registration and login *)

Lemma existsb_false_not_in {A : Type} (f : A -> bool) (l : list A) (x : A) :
  existsb f l = false -> In x l -> f x = false.
Proof.
  intros He Hin. destruct (f x) eqn:E; [|done].
  assert (existsb f l = true) by (apply existsb_exists; eauto). congruence.
Qed.

Lemma find_snoc {A : Type} (f : A -> bool) (l : list A) (x : A) :
  existsb f l = false -> f x = true -> List.find f (l ++ [x]) = Some x.
Proof.
  induction l as [|y l IH]; simpl; intros He Hx; [by rewrite Hx|].
  apply orb_false_elim in He as [-> He]. by apply IH.
Qed.

Lemma next_id_above (l : list User) (u : User) :
  In u l -> id u < next_id l.
Proof.
  unfold next_id. induction l as [|v l IH]; simpl; [done|].
  intros [->|Hin]; [lia|]. specialize (IH Hin). lia.
Qed.

Lemma NoDup_snoc {A : Type} (l : list A) (x : A) :
  NoDup l -> ~ In x l -> NoDup (l ++ [x]).
Proof.
  intros Hl Hx. apply NoDup_app. split; [done|]. split.
  - intros y Hy Hyx. apply list_elem_of_In in Hy.
    apply list_elem_of_In in Hyx as [<-|[]]. done.
  - apply NoDup_singleton.
Qed.

Lemma unique_snoc (l : list User) (row : User) :
  NoDup (map email l) /\ NoDup (map username l) /\ NoDup (map id l) ->
  existsb (fun u => String.eqb (email u) (email row)) l = false ->
  existsb (fun u => String.eqb (username u) (username row)) l = false ->
  id row = next_id l ->
  NoDup (map email (l ++ [row])) /\ NoDup (map username (l ++ [row])) /\
  NoDup (map id (l ++ [row])).
Proof.
  intros (He & Hn & Hi) Hemail Hname Hid. rewrite !map_app. simpl.
  split; [|split]; apply NoDup_snoc; try done.
  - rewrite in_map_iff. intros (u & Hu & Hin).
    pose proof (existsb_false_not_in _ _ u Hemail Hin) as Hf. simpl in Hf.
    rewrite Hu, String.eqb_refl in Hf. done.
  - rewrite in_map_iff. intros (u & Hu & Hin).
    pose proof (existsb_false_not_in _ _ u Hname Hin) as Hf. simpl in Hf.
    rewrite Hu, String.eqb_refl in Hf. done.
  - rewrite in_map_iff. intros (u & Hu & Hin).
    pose proof (next_id_above l u Hin). lia.
Qed.

Section RegistrationInvariants.
Context {ext : Externals}.
Variable settings : Settings.

Lemma register_create_keeps_users_unique
    (user_data : UserRegister) (w w' : World) (r : outcome AuthResponse) :
  users_unique w ->
  register_create settings user_data w = (r, w') ->
  users_unique w'.
Proof.
  intros Hu. rewrite register_create_run. cbv zeta.
  destruct (email_taken _ w) eqn:He; [by intros [= <- <-]|].
  destruct (username_taken _ w) eqn:Hn; [by intros [= <- <-]|].
  intros [= <- <-]. unfold users_unique. cbn [db_users set_users].
  by apply unique_snoc.
Qed.

(** X4. Registration keeps the table free of duplicates: if no two rows
    share an e-mail, a username or a key before, none do after [register],
    whatever its outcome -- also when another request acts between the
    checks and the write (the store then refuses the insert). *)
Theorem registration_keeps_users_unique :
  (forall user_data w r w',
     users_unique w ->
     register settings user_data w = (r, w') ->
     users_unique w') /\
  (forall other user_data w w0 w1 r w2,
     register_checks user_data w = (Returned tt, w0) ->
     other w0 = (Returned tt, w1) ->
     users_unique w1 ->
     register_interleaved settings other user_data w = (r, w2) ->
     users_unique w2).
Proof.
  split.
  - intros ud w r w' Hu. rewrite register_run. cbv zeta.
    destruct (email_taken _ w) eqn:He; [by intros [= <- <-]|].
    destruct (username_taken _ w) eqn:Hn; [by intros [= <- <-]|].
    intros [= <- <-]. unfold users_unique. cbn [db_users set_users].
    by apply unique_snoc.
  - intros other ud w w0 w1 r w2 Hchecks Hother Hu.
    unfold register_interleaved. unfold mbind at 1. unfold M_bind.
    rewrite Hchecks. unfold mbind at 1. unfold M_bind. rewrite Hother.
    by apply register_create_keeps_users_unique.
Qed.

(** X5. What a successful registration does: exactly one row is appended; it
    carries the request's e-mail, username and full name, the clock's time as
    [created_at] and [updated_at], and a key larger than every key in use;
    the returned user view is the view of that row; one salt has been drawn;
    and looking the new e-mail or username up afterwards finds that row. *)
Theorem register_success_effects
    (user_data : UserRegister) (w w' : World) (r : AuthResponse) :
  register settings user_data w = (Returned r, w') ->
  exists row,
    db_users w' = db_users w ++ [row] /\
    user r = model_validate row /\
    email row = reg_email user_data /\
    username row = reg_username user_data /\
    full_name row = reg_full_name user_data /\
    created_at row = utcnow w /\ updated_at row = utcnow w /\
    (forall u, In u (db_users w) -> id u < id row) /\
    salts_drawn w' = S (salts_drawn w) /\
    fst (get_user_by_email (reg_email user_data) w') = Returned (Some row) /\
    fst (get_user_by_username (reg_username user_data) w')
      = Returned (Some row).
Proof.
  rewrite register_run. cbv zeta.
  destruct (email_taken _ w) eqn:He; [discriminate|].
  destruct (username_taken _ w) eqn:Hn; [discriminate|].
  intros [= <- <-]. exists (fresh_user user_data w).
  repeat (split; [reflexivity|]).
  split; [intros u Hu; by apply next_id_above|].
  split; [reflexivity|].
  rewrite get_user_by_email_run, get_user_by_username_run.
  cbn [fst db_users set_users].
  split; f_equal; apply find_snoc; try done; apply String.eqb_refl.
Qed.

(** X6. Once an e-mail or a username is registered it cannot be registered
    again: after a successful registration, a registration with the same
    e-mail is refused with "Email already registered", one with the same
    username is refused with a 409, and neither changes the table. *)
Theorem second_registration_is_refused
    (first second : UserRegister) (w w' : World) (r : AuthResponse) :
  register settings first w = (Returned r, w') ->
  (reg_email second = reg_email first ->
   fst (register settings second w') = Raised (HTTPError email_conflict)) /\
  (reg_username second = reg_username first ->
   exists e, fst (register settings second w') = Raised (HTTPError e) /\
             status_code e = 409) /\
  (reg_email second = reg_email first \/
   reg_username second = reg_username first ->
   db_users (snd (register settings second w')) = db_users w').
Proof.
  intros Hrun.
  destruct (register_success_effects _ _ _ _ Hrun)
    as (row & Hrows & _ & Hmail & Hname & _).
  assert (reg_email second = reg_email first ->
          email_taken (reg_email second) w' = true) as Htaken_e.
  { intros ->. unfold email_taken. rewrite Hrows, existsb_app. simpl.
    by rewrite Hmail, String.eqb_refl, orb_true_r. }
  assert (reg_username second = reg_username first ->
          username_taken (reg_username second) w' = true) as Htaken_n.
  { intros ->. unfold username_taken. rewrite Hrows, existsb_app. simpl.
    by rewrite Hname, String.eqb_refl, orb_true_r. }
  rewrite register_run. cbv zeta.
  split; [|split].
  - intros He. by rewrite (Htaken_e He).
  - intros Hn. rewrite (Htaken_n Hn).
    destruct (email_taken _ w'); eexists; split; reflexivity.
  - intros [He|Hn].
    + by rewrite (Htaken_e He).
    + rewrite (Htaken_n Hn). by destruct (email_taken _ w').
Qed.

End RegistrationInvariants.

Lemma registration_keeps_users_unique_witness : users_unique alice_world.
Proof.
  apply (proj1 (registration_keeps_users_unique (ext := sample_externals)
                  default_settings)
           alice_request empty_world
           (fst (register (ext := sample_externals) default_settings
                   alice_request empty_world))
           alice_world).
  - repeat split; simpl; apply NoDup_nil_2.
  - vm_compute. reflexivity.
Defined.

Lemma register_success_effects_witness :
  exists row,
    db_users alice_world = db_users empty_world ++ [row] /\
    email row = "a@x.com" /\ username row = "alice".
Proof.
  destruct (register_success_effects (ext := sample_externals) default_settings
              alice_request empty_world alice_world
              {| message := "User registered successfully";
                 user := model_validate alice_row;
                 token := issued_token (ext := sample_externals)
                            default_settings alice_row 1700000000 |})
    as (row & Hrows & _ & Hmail & Hname & _).
  - vm_compute. reflexivity.
  - exists row. by repeat split.
Defined.

Lemma second_registration_is_refused_witness :
  fst (register (ext := sample_externals) default_settings
         duplicate_email_request alice_world)
  = Raised (HTTPError email_conflict).
Proof.
  apply (proj1 (second_registration_is_refused (ext := sample_externals)
                  default_settings alice_request duplicate_email_request
                  empty_world alice_world
                  {| message := "User registered successfully";
                     user := model_validate alice_row;
                     token := issued_token (ext := sample_externals)
                                default_settings alice_row 1700000000 |}
                  ltac:(vm_compute; reflexivity))).
  reflexivity.
Defined.

(** ** Login after registration; what login leaves alone *)

Section LoginProperties.
Context {ext : Externals}.
Variable settings : Settings.

(** X7. Register, then log in: after a successful registration (the salt
    drawn having the scheme's size), logging in with the registered e-mail
    and password succeeds, with status 200, the message "Login successful"
    and the same user view as the registration returned. *)
Theorem register_then_login
    (user_data : UserRegister) (w w' : World) (r : AuthResponse) :
  String.length (os_salt (salts_drawn w)) = bcrypt_salt_chars ->
  register settings user_data w = (Returned r, w') ->
  exists r2 w'',
    login settings {| login_email := reg_email user_data;
                      login_password := reg_password user_data |} w'
      = (Returned r2, w'') /\
    message r2 = "Login successful" /\
    user r2 = user r /\
    status (respond settings 200 "/api/v1/login" (Returned r2)) = 200.
Proof.
  intros Hsalt. rewrite register_run. cbv zeta.
  destruct (email_taken _ w) eqn:He; [discriminate|].
  destruct (username_taken _ w) eqn:Hn; [discriminate|].
  intros [= <- <-]. rewrite login_run. cbv zeta.
  cbn [login_email login_password db_users set_users].
  rewrite find_snoc by (done || apply String.eqb_refl).
  unfold check_password. cbn [hashed_password fresh_user]. unfold fresh_hash.
  rewrite parse_encode_hash by (done || (unfold bcrypt_rounds; lia)).
  rewrite String.eqb_refl. eexists _, _. by repeat split.
Qed.

(** X8. Login only reads: whatever its outcome, [login] sends the store one
    look-up by e-mail and nothing else; the table, the clock and the salt
    generator are left as they were. *)
Theorem login_only_reads
    (credentials : UserLogin) (w w' : World) (r : outcome AuthResponse) :
  login settings credentials w = (r, w') ->
  db_trace w' = db_trace w ++ [SelectByEmail (login_email credentials)] /\
  db_users w' = db_users w /\
  utcnow w' = utcnow w /\
  salts_drawn w' = salts_drawn w.
Proof.
  rewrite login_run. cbv zeta.
  destruct (List.find _ _) as [u|];
    [destruct (check_password _ _) as [[|]|]|]; by intros [= <- <-].
Qed.

(** X9. [register] answers "Username already taken" exactly when no stored
    row has the request's e-mail and some stored row has exactly its
    username: the e-mail check comes first, so a request that duplicates
    both is answered "Email already registered". *)
Theorem username_conflict_exactly (user_data : UserRegister) (w : World) :
  (exists w', register settings user_data w
              = (Raised (HTTPError username_conflict), w')) <->
  (forall u, In u (db_users w) -> email u <> reg_email user_data) /\
  (exists u, In u (db_users w) /\ username u = reg_username user_data).
Proof.
  assert (email_taken (reg_email user_data) w = false <->
          forall u, In u (db_users w) -> email u <> reg_email user_data) as He.
  { unfold email_taken. split.
    - intros Hf u Hin Hu.
      pose proof (existsb_false_not_in _ _ u Hf Hin) as Hx. simpl in Hx.
      by rewrite Hu, String.eqb_refl in Hx.
    - intros Hall. destruct (existsb _ _) eqn:E; [|done].
      apply existsb_exists in E as (u & Hin & Hu).
      apply String.eqb_eq in Hu. by apply Hall in Hin. }
  assert (username_taken (reg_username user_data) w = true <->
          exists u, In u (db_users w) /\ username u = reg_username user_data)
    as Hn.
  { unfold username_taken. rewrite existsb_exists.
    split; intros (u & Hin & Hu); exists u; (split; [done|]);
      by apply String.eqb_eq. }
  rewrite <- He, <- Hn, register_run. cbv zeta.
  destruct (email_taken _ w); [|destruct (username_taken _ w)].
  - split; [intros [w' Hrun]; discriminate Hrun | intros [? _]; done].
  - split; [done | eauto].
  - split; [intros [w' Hrun]; discriminate Hrun | intros [_ ?]; done].
Qed.

End LoginProperties.

Lemma register_then_login_witness :
  exists r2 w'',
    login (ext := sample_externals) default_settings alice_login alice_world
      = (Returned r2, w'') /\
    user r2 = model_validate alice_row.
Proof.
  destruct (register_then_login (ext := sample_externals) default_settings
              alice_request empty_world alice_world
              {| message := "User registered successfully";
                 user := model_validate alice_row;
                 token := issued_token (ext := sample_externals)
                            default_settings alice_row 1700000000 |})
    as (r2 & w'' & Hrun & _ & Huser & _).
  - reflexivity.
  - vm_compute. reflexivity.
  - exists r2, w''. split; [exact Hrun | exact Huser].
Defined.

Lemma login_only_reads_witness :
  db_users (snd (login (ext := sample_externals) default_settings
                   wrong_password_login alice_world))
  = db_users alice_world.
Proof.
  refine (proj1 (proj2 (login_only_reads (ext := sample_externals)
                          default_settings wrong_password_login alice_world
                          _ _ _))).
  apply surjective_pairing.
Defined.

Lemma username_conflict_exactly_witness :
  exists w', register (ext := sample_externals) default_settings
               duplicate_username_request alice_world
             = (Raised (HTTPError username_conflict), w').
Proof.
  apply (username_conflict_exactly (ext := sample_externals) default_settings
           duplicate_username_request alice_world).
  split.
  - intros u [<-|[]]. discriminate.
  - exists alice_row. split; [by left | reflexivity].
Defined.

(** ** Request validation and the answers of the two endpoints *)

Lemma length_between_spec (lo hi : nat) (s : string) :
  length_between lo hi s = true <->
  (lo <= String.length s /\ String.length s <= hi)%nat.
Proof.
  unfold length_between. rewrite andb_true_iff, !Nat.leb_le. done.
Qed.

Section EndpointProperties.
Context {ext : Externals}.
Variable settings : Settings.

(** X10. The registration schema accepts a body exactly when its e-mail
    validates, its username has 3 to 100 characters, its password 6 to 100,
    and its full name, if given, at most 255; the validated model carries the
    validator's e-mail and the other fields unchanged. *)
Theorem parse_UserRegister_accepts (b ud : UserRegister) :
  parse_UserRegister b = inr ud <->
  validate_email (reg_email b) = Some (reg_email ud) /\
  (3 <= String.length (reg_username b) <= 100)%nat /\
  (6 <= String.length (reg_password b) <= 100)%nat /\
  (forall fn, reg_full_name b = Some fn -> (String.length fn <= 255)%nat) /\
  reg_username ud = reg_username b /\
  reg_password ud = reg_password b /\
  reg_full_name ud = reg_full_name b.
Proof.
  unfold parse_UserRegister.
  rewrite <- !length_between_spec.
  destruct (validate_email (reg_email b)) as [e|];
    destruct (length_between 3 100 (reg_username b));
    destruct (length_between 6 100 (reg_password b));
    destruct (reg_full_name b) as [fn|] eqn:Hfn;
    try destruct (String.length fn <=? 255)%nat eqn:Hlen;
    simpl; (split; [intros Hp; try discriminate Hp | intros Hc]).
  all: try (destruct Hc as (Hc1 & Hc2 & Hc3 & Hc4 & _); discriminate).
  all: try (injection Hp as <-; simpl; repeat split; try done;
            intros fn' [= <-]; by apply Nat.leb_le).
  all: try (destruct Hc as ([= ->] & _ & _ & _ & Hu & Hpw & Hf);
            destruct ud; simpl in *; by subst).
  destruct Hc as (_ & _ & _ & Hc4 & _).
  specialize (Hc4 fn eq_refl). apply Nat.leb_le in Hc4. congruence.
Qed.



(** X13. The claims [create_access_token] signs: every key of [data] other
    than "exp" is kept as given; "exp" is always set, overriding one supplied
    in [data]; it is now plus the given lifetime when that is not zero, and
    a zero lifetime, being falsy, gives the same token as no lifetime at all
    (the configured default). *)
Theorem create_access_token_claims
    (data : gmap string claim) (w : World) :
  (forall delta k, k <> "exp" ->
     to_encode settings data delta (utcnow w) !! k = data !! k) /\
  (forall delta v,
     create_access_token settings (<["exp" := v]> data) delta w
     = create_access_token settings data delta w) /\
  (forall d, d <> 0 ->
     to_encode settings data (Some d) (utcnow w) !! "exp"
     = Some (CNum (utcnow w + d))) /\
  create_access_token settings data (Some 0) w
    = create_access_token settings data None w /\
  to_encode settings data None (utcnow w) !! "exp"
    = Some (CNum (utcnow w + 60 * access_token_expire_minutes settings)).
Proof.
  split; [|split; [|split; [|split]]].
  - intros delta k Hk. unfold to_encode. by rewrite lookup_insert_ne.
  - intros delta v. unfold create_access_token, to_encode. run_M.
    by rewrite insert_insert_eq.
  - intros d Hd. unfold to_encode, effective_delta.
    rewrite lookup_insert_eq. by apply Z.eqb_neq in Hd as ->.
  - reflexivity.
  - unfold to_encode. by rewrite lookup_insert_eq.
Qed.

(** X14. The token descriptor returned with a successful registration or
    login is consistent with the token: its type is "bearer", and its
    [expires_in] is the number of seconds from now to the token's "exp"
    claim. *)
Theorem token_descriptor_consistent (r : AuthResponse) (w w' : World) :
  (exists user_data, register settings user_data w = (Returned r, w')) \/
  (exists credentials, login settings credentials w = (Returned r, w')) ->
  token_type (token r) = "bearer" /\
  expires_in (token r) = 60 * access_token_expire_minutes settings /\
  access_token (token r)
  = jwt_encode
      (<["exp" := CNum (utcnow w + expires_in (token r))]>
         {[ "sub" := CStr (resp_email (user r));
            "user_id" := CNum (resp_id (user r)) ]})
      (secret_key settings) (algorithm settings).
Proof.
  intros Hrun.
  assert (token r = issued_token settings
                      {| id := resp_id (user r); email := resp_email (user r);
                         username := ""; hashed_password := "";
                         full_name := None; created_at := 0; updated_at := 0 |}
                      (utcnow w)) as ->.
  { destruct Hrun as [[ud Hrun]|[c Hrun]].
    - rewrite register_run in Hrun. cbv zeta in Hrun.
      destruct (email_taken _ _); [discriminate|].
      destruct (username_taken _ _); [discriminate|].
      by injection Hrun as <- <-.
    - rewrite login_run in Hrun. cbv zeta in Hrun.
      destruct (List.find _ _) as [u|]; [|discriminate].
      destruct (check_password _ _) as [[|]|]; try discriminate.
      by injection Hrun as <- <-. }
  unfold issued_token. cbn [token_type expires_in access_token id email].
  split; [reflexivity|]. split; [lia|].
  replace (access_token_expire_minutes settings * 60)
    with (60 * access_token_expire_minutes settings) by lia.
  reflexivity.
Qed.

End EndpointProperties.

Lemma parse_UserRegister_accepts_witness :
  parse_UserRegister (ext := sample_externals) alice_request = inr alice_request.
Proof.
  apply (parse_UserRegister_accepts (ext := sample_externals)
           alice_request alice_request).
  repeat split; try (vm_compute; reflexivity); try (simpl; lia).
  intros fn Hfn. discriminate Hfn.
Defined.


Lemma create_access_token_claims_witness :
  to_encode default_settings {[ "sub" := CStr "a@x.com" ]} (Some 90)
    (utcnow alice_world) !! "exp"
  = Some (CNum (utcnow alice_world + 90)).
Proof.
  apply (create_access_token_claims (ext := sample_externals) default_settings
           {[ "sub" := CStr "a@x.com" ]} alice_world).
  done.
Defined.

Lemma token_descriptor_consistent_witness :
  exists r w',
    login (ext := sample_externals) default_settings alice_login alice_world
      = (Returned r, w') /\
    token_type (token r) = "bearer" /\
    expires_in (token r) = 1800.
Proof.
  destruct (login (ext := sample_externals) default_settings alice_login
              alice_world) as [[r|e] w'] eqn:Hrun;
    [|vm_compute in Hrun; discriminate Hrun].
  exists r, w'. split; [reflexivity|].
  destruct (token_descriptor_consistent (ext := sample_externals)
              default_settings r alice_world w')
    as (Htype & Hexp & _).
  - right. by exists alice_login.
  - split; [exact Htype | exact Hexp].
Defined.

Section WrongPassword.
Context {ext : Externals}.
Variable settings : Settings.

(** X15. After a successful registration (the salt drawn having the scheme's
    size), a login with the registered e-mail and a password whose digest
    under the stored salt differs from the registered password's is refused
    with the 401 "Invalid email or password", and changes nothing in the
    table. *)
Theorem register_then_wrong_password
    (user_data : UserRegister) (w w' : World) (r : AuthResponse)
    (guess : string) :
  String.length (os_salt (salts_drawn w)) = bcrypt_salt_chars ->
  bcrypt_digest bcrypt_rounds (os_salt (salts_drawn w)) guess
    <> bcrypt_digest bcrypt_rounds (os_salt (salts_drawn w))
         (reg_password user_data) ->
  register settings user_data w = (Returned r, w') ->
  login settings {| login_email := reg_email user_data;
                    login_password := guess |} w'
  = (Raised (HTTPError invalid_credentials),
     record_ops [SelectByEmail (reg_email user_data)] w').
Proof.
  intros Hsalt Hdiff. rewrite register_run. cbv zeta.
  destruct (email_taken _ w) eqn:He; [discriminate|].
  destruct (username_taken _ w) eqn:Hn; [discriminate|].
  intros [= <- <-]. rewrite login_run. cbv zeta.
  cbn [login_email login_password db_users set_users].
  rewrite find_snoc by (done || apply String.eqb_refl).
  unfold check_password. cbn [hashed_password fresh_user]. unfold fresh_hash.
  rewrite parse_encode_hash by (done || (unfold bcrypt_rounds; lia)).
  destruct (String.eqb _ _) eqn:E; [|reflexivity].
  apply String.eqb_eq in E. done.
Qed.

End WrongPassword.

Lemma register_then_wrong_password_witness :
  login (ext := sample_externals) default_settings
    wrong_password_login alice_world
  = (Raised (HTTPError invalid_credentials),
     record_ops [SelectByEmail "a@x.com"] alice_world).
Proof.
  apply (register_then_wrong_password (ext := sample_externals)
           default_settings alice_request empty_world alice_world
           {| message := "User registered successfully";
              user := model_validate alice_row;
              token := issued_token (ext := sample_externals)
                         default_settings alice_row 1700000000 |}
           "wrong").
  - reflexivity.
  - vm_compute. discriminate.
  - vm_compute. reflexivity.
Defined.
